(** * Expressive.JS: the compile pipeline of the plain-English web framework

    A shallow embedding of [tools.js] (the four framework tools) and of
    [llm-compiler.js] (plan cache check, replay of the tool calls, route
    wiring and the per-request render path), followed by the properties
    of the pipeline that the specification states.

    JavaScript strings are modelled by [string]; the values that travel in
    tool calls and in the cache file are JSON values ([JsVal]); a thrown
    exception is the [Throw] case of [Result]. *)

From Stdlib Require Import String Ascii List Bool Arith ZArith Lia.
From Stdlib Require Import Numbers.DecimalString.
From Stdlib Require Import Sorting.Permutation.
Import ListNotations.
Set Warnings "-register-all".
Open Scope list_scope.
Open Scope string_scope.

(* ================================================================== *)
(** ** JavaScript string primitives used by the sources *)
(* ================================================================== *)

Module JsString.

(** The characters the sources test for. *)
Definition dquote : ascii := ascii_of_nat 34.
Definition backslash : ascii := ascii_of_nat 92.
Definition slash : ascii := ascii_of_nat 47.
Definition dollar : ascii := ascii_of_nat 36.
Definition ampersand : ascii := ascii_of_nat 38.
Definition backtick : ascii := ascii_of_nat 96.
Definition apostrophe : ascii := ascii_of_nat 39.

(** A one-character string holding the double quote. *)
Definition dq : string := String dquote "".

(** [s.startsWith(pre)] *)
Definition startsWith (s pre : string) : bool := prefix pre s.

Fixpoint take (n : nat) (s : string) : string :=
  match n, s with
  | S k, String c s' => String c (take k s')
  | _, _ => ""
  end.

Fixpoint drop (n : nat) (s : string) : string :=
  match n, s with
  | S k, String _ s' => drop k s'
  | _, _ => s
  end.

(** [s.indexOf(pat)]: position of the first occurrence, [None] for -1. *)
Fixpoint indexOf (pat s : string) {struct s} : option nat :=
  if prefix pat s then Some 0
  else match s with
       | EmptyString => None
       | String _ s' => option_map S (indexOf pat s')
       end.

(** [a.join(sep)] on an array of strings. *)
Definition join (sep : string) (l : list string) : string := String.concat sep l.

(** The loop of [String.prototype.split] for a non-empty separator:
    find the next occurrence from the current position, emit the text
    before it, continue after it.  [fuel] bounds the number of
    occurrences; [length s] is always enough. *)
Fixpoint split_loop (fuel : nat) (sep s : string) : list string :=
  match indexOf sep s with
  | None => [s]
  | Some j =>
      match fuel with
      | O => [s]
      | S f => take j s :: split_loop f sep (drop (j + String.length sep) s)
      end
  end.

(** [s.split(sep)]; an empty separator splits into single characters. *)
Definition split (s sep : string) : list string :=
  match sep with
  | EmptyString => map (fun c => String c "") (list_ascii_of_string s)
  | _ => split_loop (String.length s) sep s
  end.

(** GetSubstitution of ECMA-262 for a string pattern (no captures):
    in the replacement text, [$$] stands for a dollar, [$&] for the
    matched text, [$`] for the text before the match and [$'] for the
    text after it; any other dollar is copied. *)
Fixpoint GetSubstitution (matched before after templ : string) : string :=
  match templ with
  | EmptyString => ""
  | String c rest =>
      if Ascii.eqb c dollar then
        match rest with
        | EmptyString => String c ""
        | String d rest' =>
            if Ascii.eqb d dollar then
              String dollar (GetSubstitution matched before after rest')
            else if Ascii.eqb d ampersand then
              matched ++ GetSubstitution matched before after rest'
            else if Ascii.eqb d backtick then
              before ++ GetSubstitution matched before after rest'
            else if Ascii.eqb d apostrophe then
              after ++ GetSubstitution matched before after rest'
            else String c (GetSubstitution matched before after rest)
        end
      else String c (GetSubstitution matched before after rest)
  end.

(** [s.replace(pat, repl)] with a string pattern: only the first
    occurrence is replaced, and [repl] goes through GetSubstitution. *)
Definition replace (s pat repl : string) : string :=
  match indexOf pat s with
  | None => s
  | Some pos =>
      let before := take pos s in
      let after := drop (pos + String.length pat) s in
      before ++ GetSubstitution pat before after repl ++ after
  end.

(** Removes the run of [c] at the start of [s]. *)
Fixpoint strip_leading (c : ascii) (s : string) : string :=
  match s with
  | EmptyString => ""
  | String d s' => if Ascii.eqb d c then strip_leading c s' else s
  end.

(** [s.replace(/^\\+|^\/+/, '')]: the first alternative removes a
    leading run of backslashes, the second one (tried only when the
    first does not match) a leading run of slashes. *)
Definition strip_leading_separators (s : string) : string :=
  match s with
  | EmptyString => ""
  | String d _ =>
      if Ascii.eqb d backslash then strip_leading backslash s
      else if Ascii.eqb d slash then strip_leading slash s
      else s
  end.

(** [s.replace(/\\/g, '/')] *)
Fixpoint backslashes_to_slashes (s : string) : string :=
  match s with
  | EmptyString => ""
  | String d s' =>
      String (if Ascii.eqb d backslash then slash else d)
             (backslashes_to_slashes s')
  end.

(** [p] occurs in [s] as a contiguous substring. *)
Definition occurs (p s : string) : Prop :=
  exists a b, s = a ++ p ++ b.

(** The character [c] appears in [s]. *)
Fixpoint has_char (c : ascii) (s : string) : bool :=
  match s with
  | EmptyString => false
  | String d s' => Ascii.eqb d c || has_char c s'
  end.

(** Some non-empty end of [a], laid over the start of [b], agrees with
    it as far as both go: the end is a prefix of [b], or [b] is a prefix
    of the end. *)
Fixpoint meets (a b : string) : bool :=
  match a with
  | EmptyString => false
  | String _ a' => prefix a b || prefix b a || meets a' b
  end.

(** [p] is not empty and [p] and [s] cannot be laid over each other on
    a common stretch: no end of one is a start of the other and neither
    occurs in the other. *)
Definition separate (p s : string) : bool :=
  negb (String.eqb p "") && negb (meets p s) && negb (meets s p).

End JsString.
Import JsString.

(* ================================================================== *)
(** ** JSON values and the conversions the sources apply to them *)
(* ================================================================== *)

(** A JSON-compatible JavaScript value.  A number is carried as the text
    that [String(n)] gives for it, which is all the sources ever do with a
    number (besides testing whether it is truthy).  An object is the list
    of its own properties. *)
Inductive JsVal : Type :=
| JUndef
| JNull
| JBool (b : bool)
| JNum (repr : string)
| JStr (s : string)
| JArr (items : list JsVal)
| JObj (fields : list (string * JsVal)).

(** A thrown exception: an [Error] with its message, a [TypeError] of
    the runtime, or the error [fs] rejects with when a file cannot be
    read ([ENOENT], [EACCES], ...). *)
Inductive Exn : Type :=
| Error (message : string)
| TypeError
| SystemError.

Inductive Result (A : Type) : Type :=
| OK (a : A)
| Throw (e : Exn).
Arguments OK {A} a.
Arguments Throw {A} e.

Definition bind {A B : Type} (c : Result A) (k : A -> Result B) : Result B :=
  match c with
  | OK a => k a
  | Throw e => Throw e
  end.

Notation "x <- c ;; k" := (bind c (fun x => k))
  (at level 61, c at next level, right associativity).

Module Js.

Fixpoint assoc {A : Type} (k : string) (l : list (string * A)) : option A :=
  match l with
  | [] => None
  | (k', a) :: l' => if String.eqb k' k then Some a else assoc k l'
  end.

(** [v.k] (or [v?.k]) for the keys the sources read.  None of them is a
    property of a prototype, so only an own property of an object gives
    something else than [undefined]. *)
Definition get_prop (v : JsVal) (k : string) : JsVal :=
  match v with
  | JObj fields =>
      match assoc k fields with
      | Some x => x
      | None => JUndef
      end
  | _ => JUndef
  end.

(** [v == null] *)
Definition nullish (v : JsVal) : bool :=
  match v with
  | JUndef | JNull => true
  | _ => false
  end.

(** ToBoolean *)
Definition truthy (v : JsVal) : bool :=
  match v with
  | JUndef | JNull => false
  | JBool b => b
  | JNum r => negb (String.eqb r "0" || String.eqb r "NaN")
  | JStr s => negb (String.eqb s "")
  | JArr _ | JObj _ => true
  end.

(** [a || b] *)
Definition or_else (a b : JsVal) : JsVal := if truthy a then a else b.

(** [a ?? b] *)
Definition coalesce (a b : JsVal) : JsVal := if nullish a then b else a.

Definition all_some {A : Type} (l : list (option A)) : option (list A) :=
  fold_right (fun o acc =>
                match o, acc with
                | Some a, Some r => Some (a :: r)
                | _, _ => None
                end) (Some []) l.

(** [String(v)], which is also ToPropertyKey on these values.  A plain
    object prints as [[object Object]] through [Object.prototype.toString],
    unless an own [toString] property (never callable in a JSON value)
    shadows it: then the conversion throws a TypeError ([None]).  An
    array joins its elements with a comma, [null] printing as nothing. *)
Fixpoint String_ (v : JsVal) : option string :=
  match v with
  | JUndef => Some "undefined"
  | JNull => Some "null"
  | JBool true => Some "true"
  | JBool false => Some "false"
  | JNum r => Some r
  | JStr s => Some s
  | JObj fields =>
      match assoc "toString" fields with
      | Some _ => None
      | None => Some "[object Object]"
      end
  | JArr items =>
      option_map (join ",")
        (all_some
           (map (fun x => if nullish x then Some "" else String_ x) items))
  end.

Definition String_or_throw (v : JsVal) : Result string :=
  match String_ v with
  | Some s => OK s
  | None => Throw TypeError
  end.

End Js.
Import Js.

(* ================================================================== *)
(** ** tools.js: the page store and the four framework tools *)
(* ================================================================== *)

(** One entry of [pages[path].dynamic]. *)
Record DynamicEntry : Type := {
  placeholder : string;
  type : string
}.

(** [pages[path]] *)
Record Page : Type := {
  content : string;
  dynamic : list DynamicEntry
}.

(** The [pages] object: its own properties in insertion order, which is
    the order [Object.entries] walks them in (every key starts with a
    slash, so none is an array index). *)
Definition Pages : Type := list (string * Page).

Record Layout : Type := {
  header_html : string;
  footer_html : string
}.

(** The part of [ctx] the tools read and write: [ctx.pages] and
    [ctx.layout] ([ctx.app] is used by no tool). *)
Record Ctx : Type := {
  pages : Pages;
  layout : Layout
}.

Module Tools.

(** [pages[path]]; a path that passed the check of a tool starts with a
    slash, so it never names a property of [Object.prototype]. *)
Definition lookup (path : string) (ps : Pages) : option Page := assoc path ps.

(** The fresh page of [pages[path] || { content: '', dynamic: [] }]. *)
Definition empty_page : Page := {| content := ""; dynamic := [] |}.

(** [pages[path] = pages[path] || { content: '', dynamic: [] }]: an
    existing page object is kept, a missing one is added last. *)
Definition ensure_page (path : string) (ps : Pages) : Pages :=
  match lookup path ps with
  | Some _ => ps
  | None => (ps ++ [(path, empty_page)])%list
  end.

(** In-place mutation of the page object stored under [path]. *)
Fixpoint modify (path : string) (f : Page -> Page) (ps : Pages) : Pages :=
  match ps with
  | [] => []
  | (k, pg) :: ps' =>
      if String.eqb k path then (k, f pg) :: ps'
      else (k, pg) :: modify path f ps'
  end.

Definition set_content (c : string) (pg : Page) : Page :=
  {| content := c; dynamic := dynamic pg |}.

Definition push_dynamic (d : DynamicEntry) (pg : Page) : Page :=
  {| content := content pg; dynamic := (dynamic pg ++ [d])%list |}.

Definition with_pages (ctx : Ctx) (ps : Pages) : Ctx :=
  {| pages := ps; layout := layout ctx |}.

(** [args || {}] *)
Definition args_or_empty (args : JsVal) : JsVal := or_else args (JObj []).

(** [typeof path === 'string' && path.startsWith('/')] *)
Definition valid_path (v : JsVal) : option string :=
  match v with
  | JStr p => if startsWith p "/" then Some p else None
  | _ => None
  end.

(** [typeof v === 'string' && v.length > 0] *)
Definition nonempty_string (v : JsVal) : option string :=
  match v with
  | JStr s => if String.eqb s "" then None else Some s
  | _ => None
  end.

Definition quoted (s : string) : string := dq ++ s ++ dq.

Definition create_page_path_error : Exn :=
  Error ("create_page: " ++ quoted "path"
         ++ " must be a string that starts with " ++ quoted "/").
Definition create_page_content_error : Exn :=
  Error ("create_page: " ++ quoted "content" ++ " must be a string").
Definition add_asset_path_error : Exn :=
  Error ("add_asset: " ++ quoted "path"
         ++ " must be a string that starts with " ++ quoted "/").
Definition add_asset_asset_error : Exn :=
  Error ("add_asset: " ++ quoted "asset" ++ " must be a non-empty string").
Definition add_dynamic_content_path_error : Exn :=
  Error ("add_dynamic_content: " ++ quoted "path"
         ++ " must be a string that starts with " ++ quoted "/").
Definition add_dynamic_content_placeholder_error : Exn :=
  Error ("add_dynamic_content: " ++ quoted "placeholder"
         ++ " must be a non-empty string").
Definition add_dynamic_content_type_error : Exn :=
  Error ("add_dynamic_content: only type " ++ quoted "CURRENT_TIME"
         ++ " is supported in this PoC").

(** [create_page(ctx, args)] *)
Definition create_page (ctx : Ctx) (args : JsVal) : Result Ctx :=
  let args := args_or_empty args in
  let path := get_prop args "path" in
  let content := get_prop args "content" in
  match valid_path path with
  | None => Throw create_page_path_error
  | Some p =>
      match content with
      | JStr c =>
          OK (with_pages ctx
                (modify p (set_content c) (ensure_page p (pages ctx))))
      | _ => Throw create_page_content_error
      end
  end.

(** The URL under [/assets] that [add_asset] computes for [asset]. *)
Definition normalize_asset (asset : string) : string :=
  backslashes_to_slashes (strip_leading_separators asset).

Definition asset_src (asset : string) : string :=
  let norm := normalize_asset asset in
  if startsWith norm "assets/" then "/" ++ norm
  else if startsWith norm "images/" then "/assets/" ++ norm
  else "/assets/images/" ++ norm.

(** [name="value"] *)
Definition attr (name value : string) : string :=
  name ++ "=" ++ quoted value.

(** [if (v) attrs.push(`name="${String(v)}"`)] *)
Definition optional_attr (name : string) (v : JsVal) : Result (list string) :=
  if truthy v then
    s <- String_or_throw v ;;
    OK [attr name s]
  else OK [].

(** The [<img ... />] fragment of [add_asset]. *)
Definition asset_html (src : string) (alt className width height : JsVal)
  : Result string :=
  alt_text <- (if nullish alt then OK "" else String_or_throw alt) ;;
  cls <- optional_attr "class" className ;;
  w <- optional_attr "width" width ;;
  h <- optional_attr "height" height ;;
  OK ("<img "
      ++ join " " ([attr "src" src; attr "alt" alt_text] ++ cls ++ w ++ h)%list
      ++ " />").

(** The three insertion policies of [add_asset]. *)
Definition place_asset (placement placeholder : JsVal) (current html : string)
  : string :=
  match placement, nonempty_string placeholder with
  | JStr "replace_placeholder", Some ph => replace current ph html
  | JStr "prepend", _ => html ++ current
  | _, _ => current ++ html
  end.

(** [add_asset(ctx, args)] *)
Definition add_asset (ctx : Ctx) (args : JsVal) : Result Ctx :=
  let args := args_or_empty args in
  let path := get_prop args "path" in
  let asset := get_prop args "asset" in
  let alt := get_prop args "alt" in
  let placement :=
    match get_prop args "placement" with
    | JUndef => JStr "append"
    | v => v
    end in
  let placeholder := get_prop args "placeholder" in
  let className := get_prop args "className" in
  let width := get_prop args "width" in
  let height := get_prop args "height" in
  match valid_path path with
  | None => Throw add_asset_path_error
  | Some p =>
      match nonempty_string asset with
      | None => Throw add_asset_asset_error
      | Some a =>
          html <- asset_html (asset_src a) alt className width height ;;
          let ps := ensure_page p (pages ctx) in
          OK (with_pages ctx
                (modify p
                   (fun pg =>
                      set_content
                        (place_asset placement placeholder (content pg) html)
                        pg)
                   ps))
      end
  end.

(** [add_dynamic_content(ctx, args)] *)
Definition add_dynamic_content (ctx : Ctx) (args : JsVal) : Result Ctx :=
  let args := args_or_empty args in
  let path := get_prop args "path" in
  let placeholder := get_prop args "placeholder" in
  let type := get_prop args "type" in
  match valid_path path with
  | None => Throw add_dynamic_content_path_error
  | Some p =>
      match nonempty_string placeholder with
      | None => Throw add_dynamic_content_placeholder_error
      | Some ph =>
          match type with
          | JStr "CURRENT_TIME" =>
              OK (with_pages ctx
                    (modify p
                       (push_dynamic
                          {| placeholder := ph; type := "CURRENT_TIME" |})
                       (ensure_page p (pages ctx))))
          | _ => Throw add_dynamic_content_type_error
          end
      end
  end.

(** [set_layout(ctx, args)]; [ctx.layout] is always set when the
    compiler calls it, so both fields are simply overwritten. *)
Definition set_layout (ctx : Ctx) (args : JsVal) : Result Ctx :=
  let args := args_or_empty args in
  let header_html := get_prop args "header_html" in
  let footer_html := get_prop args "footer_html" in
  header <- (if nullish header_html then OK "" else String_or_throw header_html) ;;
  footer <- (if nullish footer_html then OK "" else String_or_throw footer_html) ;;
  OK {| pages := pages ctx;
        layout := {| header_html := header; footer_html := footer |} |}.

End Tools.
Import Tools.

(* ================================================================== *)
(** ** llm-compiler.js: replay of the tool calls *)
(* ================================================================== *)

(** What [tools[name]] can be when [typeof] says it is a function: one of
    the four methods of the object literal, or a method inherited from
    [Object.prototype].  The compiler calls it as [fn(ctx, args)], without
    a receiver: [constructor] and [toString] then return without touching
    [ctx], the other inherited methods convert the missing receiver to an
    object and throw a TypeError. *)
Inductive ToolsMember : Type :=
| Tool_create_page
| Tool_add_asset
| Tool_add_dynamic_content
| Tool_set_layout
| Inherited_returns
| Inherited_throws.

(** What [console.warn] is given during the replay. *)
Inductive Warning : Type :=
| NoNameSkipped (call : JsVal)
| UnknownToolSkipped (name : string).

(** The state of the replay loop: the store shared by every [ctx], and
    the warnings printed so far. *)
Record Build : Type := {
  ctx : Ctx;
  warnings : list Warning
}.

Module Replay.

Definition own_tools : list (string * ToolsMember) :=
  [ ("create_page", Tool_create_page);
    ("add_asset", Tool_add_asset);
    ("add_dynamic_content", Tool_add_dynamic_content);
    ("set_layout", Tool_set_layout) ].

(** The function-valued properties of [Object.prototype]. *)
Definition inherited_members : list (string * ToolsMember) :=
  [ ("constructor", Inherited_returns);
    ("toString", Inherited_returns);
    ("toLocaleString", Inherited_throws);
    ("valueOf", Inherited_throws);
    ("hasOwnProperty", Inherited_throws);
    ("isPrototypeOf", Inherited_throws);
    ("propertyIsEnumerable", Inherited_throws);
    ("__defineGetter__", Inherited_throws);
    ("__defineSetter__", Inherited_throws);
    ("__lookupGetter__", Inherited_throws);
    ("__lookupSetter__", Inherited_throws) ].

(** [tools[key]] when [typeof tools[key] === 'function'], else [None]. *)
Definition tools_member (key : string) : option ToolsMember :=
  assoc key (own_tools ++ inherited_members)%list.

(** [fn(ctx, args)] *)
Definition call_member (fn : ToolsMember) (c : Ctx) (args : JsVal)
  : Result Ctx :=
  match fn with
  | Tool_create_page => create_page c args
  | Tool_add_asset => add_asset c args
  | Tool_add_dynamic_content => add_dynamic_content c args
  | Tool_set_layout => set_layout c args
  | Inherited_returns => OK c
  | Inherited_throws => Throw TypeError
  end.

(** [call?.function?.name || call?.name] *)
Definition call_name (call : JsVal) : JsVal :=
  or_else (get_prop (get_prop call "function") "name") (get_prop call "name").

(** [call?.function?.arguments ?? call?.arguments] *)
Definition call_argsRaw (call : JsVal) : JsVal :=
  coalesce (get_prop (get_prop call "function") "arguments")
           (get_prop call "arguments").

Definition warn (w : Warning) (b : Build) : Build :=
  {| ctx := ctx b; warnings := (warnings b ++ [w])%list |}.

(** [let pages = {}; let layout = { header_html: '', footer_html: '' }] *)
Definition fresh_build : Build :=
  {| ctx := {| pages := [];
               layout := {| header_html := ""; footer_html := "" |} |};
     warnings := [] |}.

Section WithJSON.

(** [JSON.parse] of the runtime: [None] when it throws. *)
Variable JSON_parse : string -> option JsVal.

(** [parseToolArgs(maybeJson)] *)
Definition parseToolArgs (maybeJson : JsVal) : Result JsVal :=
  match maybeJson with
  | JUndef | JNull => OK (JObj [])
  | JObj _ | JArr _ => OK maybeJson
  | _ =>
      text <- String_or_throw maybeJson ;;
      match JSON_parse text with
      | Some v => OK v
      | None =>
          Throw (Error ("Failed to parse tool arguments as JSON: " ++ text))
      end
  end.

(** One turn of [for (const call of toolCalls)]. *)
Definition exec_call (b : Build) (call : JsVal) : Result Build :=
  let name := call_name call in
  let argsRaw := call_argsRaw call in
  if negb (truthy name) then OK (warn (NoNameSkipped call) b)
  else
    key <- String_or_throw name ;;
    match tools_member key with
    | None => OK (warn (UnknownToolSkipped key) b)
    | Some fn =>
        args <- parseToolArgs argsRaw ;;
        c <- call_member fn (ctx b) args ;;
        OK {| ctx := c; warnings := warnings b |}
    end.

(** The whole loop: the first exception leaves it. *)
Fixpoint replay (toolCalls : list JsVal) (b : Build) : Result Build :=
  match toolCalls with
  | [] => OK b
  | call :: rest =>
      b' <- exec_call b call ;;
      replay rest b'
  end.

(** The same loop as a relation, one rule per path through its body. *)
Inductive turn : Build -> JsVal -> Result Build -> Prop :=
| turn_no_name b call :
    truthy (call_name call) = false ->
    turn b call (OK (warn (NoNameSkipped call) b))
| turn_bad_key b call :
    truthy (call_name call) = true ->
    String_ (call_name call) = None ->
    turn b call (Throw TypeError)
| turn_unknown b call key :
    truthy (call_name call) = true ->
    String_ (call_name call) = Some key ->
    tools_member key = None ->
    turn b call (OK (warn (UnknownToolSkipped key) b))
| turn_bad_args b call key fn e :
    truthy (call_name call) = true ->
    String_ (call_name call) = Some key ->
    tools_member key = Some fn ->
    parseToolArgs (call_argsRaw call) = Throw e ->
    turn b call (Throw e)
| turn_tool_throws b call key fn args e :
    truthy (call_name call) = true ->
    String_ (call_name call) = Some key ->
    tools_member key = Some fn ->
    parseToolArgs (call_argsRaw call) = OK args ->
    call_member fn (ctx b) args = Throw e ->
    turn b call (Throw e)
| turn_tool_returns b call key fn args c :
    truthy (call_name call) = true ->
    String_ (call_name call) = Some key ->
    tools_member key = Some fn ->
    parseToolArgs (call_argsRaw call) = OK args ->
    call_member fn (ctx b) args = OK c ->
    turn b call (OK {| ctx := c; warnings := warnings b |}).

Inductive replays : list JsVal -> Build -> Result Build -> Prop :=
| replays_done b :
    replays [] b (OK b)
| replays_next call rest b b' r :
    turn b call (OK b') ->
    replays rest b' r ->
    replays (call :: rest) b r
| replays_abort call rest b e :
    turn b call (Throw e) ->
    replays (call :: rest) b (Throw e).

End WithJSON.

(** A call that the loop skips with a warning: it has no name, or
    [tools] has no function under its name. *)
Definition skipped (call : JsVal) : Prop :=
  truthy (call_name call) = false
  \/ exists key, String_ (call_name call) = Some key
                 /\ tools_member key = None.

End Replay.
Import Replay.

(* ================================================================== *)
(** ** llm-compiler.js: route wiring and the render path *)
(* ================================================================== *)

(** The wall clock seen through [new Date().toLocaleString()]: the text
    of its [t]-th evaluation. *)
Definition Clock : Type := nat -> string.

(** What the serving layer receives: one GET route per entry of [pages],
    in the order of [Object.entries], and the layout captured by every
    handler. *)
Record RouteTable : Type := {
  routes : list (string * Page);
  served_layout : Layout
}.

Module Render.

Definition fallback_content : string :=
  "<!doctype html><html><head><meta charset=" ++ quoted "utf-8"
  ++ "><title>LLM Compiler</title></head><body>"
  ++ "<h1>LLM compilation produced no pages</h1>"
  ++ "<p>Please check your API key and model, or adjust app.txt.</p>"
  ++ "</body></html>".

Definition fallback_page : Page :=
  {| content := fallback_content; dynamic := [] |}.

(** [if (pageEntries.length === 0) pages['/'] = { ... }] *)
Definition with_fallback (ps : Pages) : Pages :=
  match ps with
  | [] => [("/", fallback_page)]
  | _ => ps
  end.

(** [for (const [routePath, page] of Object.entries(pages)) app.get(...)] *)
Definition wire_routes (b : Build) : RouteTable :=
  {| routes := with_fallback (pages (ctx b));
     served_layout := layout (ctx b) |}.

(** The loop of [applyDynamicReplacements]; [t] counts the readings of
    the clock made so far and is returned updated.  (The early return on
    an empty [dynamic] gives what the loop gives on it.) *)
Fixpoint applyDynamicReplacements (now : Clock) (t : nat) (html : string)
         (dynamic : list DynamicEntry) : string * nat :=
  match dynamic with
  | [] => (html, t)
  | entry :: rest =>
      if String.eqb (placeholder entry) "" then
        applyDynamicReplacements now t html rest
      else if String.eqb (type entry) "CURRENT_TIME" then
        applyDynamicReplacements now (S t)
          (join (now t) (split html (placeholder entry))) rest
      else applyDynamicReplacements now t html rest
  end.

(** [(header || footer) ? `${header}${body}${footer}` : body] *)
Definition stitch (header body footer : string) : string :=
  if negb (String.eqb header "") || negb (String.eqb footer "")
  then header ++ body ++ footer
  else body.

(** The handler of one route: the text given to [res.send], and the
    clock count after the request. *)
Definition handler (l : Layout) (page : Page) (now : Clock) (t : nat)
  : string * nat :=
  let (body, t') := applyDynamicReplacements now t (content page) (dynamic page) in
  (stitch (header_html l) body (footer_html l), t').

End Render.
Import Render.

(* ================================================================== *)
(** ** llm-compiler.js: the plan cache and the whole build *)
(* ================================================================== *)

(** [.cache/compiled-plan.json] as the cache check sees it: the
    modification time of the file, and [JSON.parse] of its text ([None]
    when reading or parsing throws).  Modification times are [mtimeMs]
    values; the check only compares them, so they are taken in [Z]. *)
Record CacheFile : Type := {
  cache_mtimeMs : Z;
  cache_parsed : option JsVal
}.

(** What a build reads from outside. *)
Record Env : Type := {
  (** the source file [app.txt]: [None] when it cannot be read
      ([fs.readFile(sourcePath)] and [fs.stat(sourcePath)] throw), else
      its [fs.stat(sourcePath).mtimeMs]; the file is read first and its
      time asked for next, and it is taken not to vanish in between *)
  source_mtimeMs : option Z;
  (** [None] when [fs.stat(cachePath)] throws *)
  cache_file : option CacheFile;
  (** the result of [listAssetFiles()] *)
  assetsList : list string;
  (** [cfg?.gemini?.apiKey || process.env.GEMINI_API_KEY], [None] when falsy *)
  apiKey : option string;
  (** the request to the model, if it is made: the thrown error, or
      [data?.choices?.[0]?.message?.tool_calls || []] *)
  model_tool_calls : Result (list JsVal)
}.

Inductive PlanOrigin : Type :=
| FromCache
| FromModel.

(** The object written to the cache file after a fresh compilation. *)
Record CompiledPlan : Type := {
  toolCalls : list JsVal;
  createdAt : string;
  sourceMTimeMs : Z;
  model : string;
  openAIBase : string;
  assetsSignature : string
}.

Module Cache.

Fixpoint insert_sorted (x : string) (l : list string) : list string :=
  match l with
  | [] => [x]
  | y :: l' => if String.leb x y then x :: l else y :: insert_sorted x l'
  end.

(** [[...assetsList].sort()]: by code units. *)
Definition sort (l : list string) : list string :=
  fold_right insert_sorted [] l.

Definition hex_digit (n : nat) : string :=
  substring n 1 "0123456789abcdef".

(** QuoteJSONString on one character. *)
Definition json_escape (c : ascii) : string :=
  let n := nat_of_ascii c in
  let bs := String backslash "" in
  if Nat.eqb n 8 then bs ++ "b"
  else if Nat.eqb n 9 then bs ++ "t"
  else if Nat.eqb n 10 then bs ++ "n"
  else if Nat.eqb n 12 then bs ++ "f"
  else if Nat.eqb n 13 then bs ++ "r"
  else if Nat.eqb n 34 then bs ++ dq
  else if Nat.eqb n 92 then bs ++ bs
  else if Nat.ltb n 32 then bs ++ "u00" ++ hex_digit (n / 16) ++ hex_digit (n mod 16)
  else String c "".

Fixpoint json_quote_body (s : string) : string :=
  match s with
  | EmptyString => ""
  | String c s' => json_escape c ++ json_quote_body s'
  end.

Definition json_quote (s : string) : string := dq ++ json_quote_body s ++ dq.

(** [JSON.stringify] of an array of strings. *)
Definition JSON_stringify_strings (l : list string) : string :=
  "[" ++ join "," (map json_quote l) ++ "]".

(** [JSON.stringify([...assetsList].sort())] *)
Definition assets_signature (assets : list string) : string :=
  JSON_stringify_strings (sort assets).

(** [String(n)] for an integral number of milliseconds. *)
Definition Z_to_string (z : Z) : string :=
  NilZero.string_of_int (Z.to_int z).

(** The cache file holding [plan], read back by [JSON.parse]. *)
Definition plan_json (plan : CompiledPlan) : JsVal :=
  JObj [ ("toolCalls", JArr (toolCalls plan));
         ("createdAt", JStr (createdAt plan));
         ("sourceMTimeMs", JNum (Z_to_string (sourceMTimeMs plan)));
         ("model", JStr (model plan));
         ("openAIBase", JStr (openAIBase plan));
         ("assetsSignature", JStr (assetsSignature plan)) ].

(** The cache check of [compileApp]: the tool calls of the cached plan
    when [useCache] ends up true. *)
Definition cached_tool_calls (env : Env) : option (list JsVal) :=
  match source_mtimeMs env, cache_file env with
  | Some source_m, Some cf =>
      if (cache_mtimeMs cf >=? source_m)%Z then
        match cache_parsed cf with
        | Some cached =>
            match get_prop cached "toolCalls",
                  get_prop cached "assetsSignature" with
            | JArr calls, JStr sig =>
                if String.eqb sig (assets_signature (assetsList env))
                then Some calls
                else None
            | _, _ => None
            end
        | None => None
        end
      else None
  | _, _ => None
  end.

Definition missing_key_error : Exn :=
  Error ("Gemini API key is missing. Provide it in config.json under "
         ++ "gemini.apiKey or set GEMINI_API_KEY.").

(** [await fs.readFile(sourcePath, 'utf8')], the first statement of
    [compileApp], outside any [try]: the build rejects when the source
    cannot be read.  The text read goes to the model only. *)
Definition read_source (env : Env) : Result unit :=
  match source_mtimeMs env with
  | None => Throw SystemError
  | Some _ => OK tt
  end.

(** Steps 1 to 4 of [compileApp]: the source is read, then come the
    tool calls to replay, and whether they are taken from the cache or
    from a request to the model. *)
Definition obtain_tool_calls (env : Env) : Result (PlanOrigin * list JsVal) :=
  _ <- read_source env ;;
  match cached_tool_calls env with
  | Some calls => OK (FromCache, calls)
  | None =>
      match apiKey env with
      | None => Throw missing_key_error
      | Some _ =>
          calls <- model_tool_calls env ;;
          OK (FromModel, calls)
      end
  end.

(** [compileApp()]: where the plan came from and the routes wired on
    the returned application, or the exception it rejects with: that of
    reading the source, of the missing key, of the request, or of the
    replay. *)
Definition compileApp (JSON_parse : string -> option JsVal) (env : Env)
  : Result (PlanOrigin * RouteTable) :=
  plan <- obtain_tool_calls env ;;
  b <- replay JSON_parse (snd plan) fresh_build ;;
  OK (fst plan, wire_routes b).

(** The routes of a build, whatever the origin of its plan. *)
Definition built_routes (r : Result (PlanOrigin * RouteTable))
  : Result RouteTable :=
  x <- r ;; OK (snd x).

(** The validity rule in the words of the specification: the stored
    source fingerprint is at least the modification time of the source,
    and the stored signature is the current one. *)
Definition spec_plan_valid (plan : CompiledPlan) (source_m : Z)
           (signature : string) : Prop :=
  (sourceMTimeMs plan >= source_m)%Z /\ assetsSignature plan = signature.

End Cache.
Import Cache.

(* ================================================================== *)
(** ** Tool calls and environments used in the examples *)
(* ================================================================== *)

Module Samples.

(** A tool call in the shape of the model's response:
    [{ function: { name, arguments } }]. *)
Definition tool_call (name : string) (args : JsVal) : JsVal :=
  JObj [("function", JObj [("name", JStr name); ("arguments", args)])].

Definition create_page_call (path content : string) : JsVal :=
  tool_call "create_page"
    (JObj [("path", JStr path); ("content", JStr content)]).

(** [JSON.parse] on the texts that the examples pass to it: two JSON
    texts, and [{oops], which is not JSON and makes it throw. *)
Definition JSON_parse_sample (text : string) : option JsVal :=
  if String.eqb text "{}" then Some (JObj [])
  else if String.eqb text "null" then Some JNull
  else None.

(** A page created twice on two paths, with an unknown tool between. *)
Definition calls_around (name : string) : list JsVal :=
  [ create_page_call "/" "A";
    tool_call name (JObj []);
    create_page_call "/about" "B" ].

(** A [create_page] whose path lacks the leading slash, before a valid
    one. *)
Definition bad_path_then_good : list JsVal :=
  [ create_page_call "about" "A"; create_page_call "/" "B" ].

(** Arguments that are not JSON, before a valid call. *)
Definition bad_json_then_good : list JsVal :=
  [ tool_call "create_page" (JStr "{oops"); create_page_call "/" "B" ].

(** An image whose alternative text holds the pattern [$&], put in
    place of a placeholder. *)
Definition hero_args : JsVal :=
  JObj [ ("path", JStr "/");
         ("asset", JStr "test.png");
         ("alt", JStr "$&");
         ("placement", JStr "replace_placeholder");
         ("placeholder", JStr "{{HERO}}") ].

Definition hero_ctx : Ctx :=
  {| pages := [("/", {| content := "<h1>Hi</h1>{{HERO}}<p>Bye</p>";
                       dynamic := [] |})];
     layout := {| header_html := ""; footer_html := "" |} |}.

(** The fragment that [add_asset] generates for [hero_args]. *)
Definition hero_html : string :=
  "<img src=" ++ quoted "/assets/images/test.png"
  ++ " alt=" ++ quoted "$&" ++ " />".

(** A clock of the en-US locale. *)
Definition us_clock : Clock := fun _ => "11/1/2026, 11:25:00 PM".

Definition colon_rule : DynamicEntry :=
  {| placeholder := ":"; type := "CURRENT_TIME" |}.

Definition colon_page : Page :=
  {| content := "Now: "; dynamic := [colon_rule] |}.

(** The tool calls that build [colon_page]. *)
Definition colon_calls : list JsVal :=
  [ create_page_call "/" "Now: ";
    tool_call "add_dynamic_content"
      (JObj [ ("path", JStr "/");
              ("placeholder", JStr ":");
              ("type", JStr "CURRENT_TIME") ]) ].

Definition current_time_rule : DynamicEntry :=
  {| placeholder := "{{CURRENT_TIME}}"; type := "CURRENT_TIME" |}.

Definition now_page : Page :=
  {| content := "Now: {{CURRENT_TIME}}"; dynamic := [current_time_rule] |}.

Definition no_layout : Layout := {| header_html := ""; footer_html := "" |}.

(** A plan compiled when the source was last modified at 100. *)
Definition old_plan : CompiledPlan :=
  {| toolCalls := [create_page_call "/" "A"];
     createdAt := "2026-11-01T23:25:00.000Z";
     sourceMTimeMs := 100;
     model := "gemini-2.5-pro";
     openAIBase := "https://generativelanguage.googleapis.com/v1beta/openai";
     assetsSignature := "[]" |}.

(** The source was modified at 150; the cache file, still holding
    [old_plan], carries the modification time 200. *)
Definition touched_cache_env : Env :=
  {| source_mtimeMs := Some 150%Z;
     cache_file := Some {| cache_mtimeMs := 200;
                           cache_parsed := Some (plan_json old_plan) |};
     assetsList := [];
     apiKey := None;
     model_tool_calls := OK [] |}.

(** The same cache file, older than the source. *)
Definition stale_cache_env : Env :=
  {| source_mtimeMs := Some 150%Z;
     cache_file := Some {| cache_mtimeMs := 120;
                           cache_parsed := Some (plan_json old_plan) |};
     assetsList := [];
     apiKey := Some "key";
     model_tool_calls := OK [create_page_call "/" "A2"] |}.

(** No cache, and a model that answers with the calls [calls]. *)
Definition fresh_env (calls : list JsVal) : Env :=
  {| source_mtimeMs := Some 150%Z;
     cache_file := None;
     assetsList := [];
     apiKey := Some "key";
     model_tool_calls := OK calls |}.

End Samples.
Import Samples.

(* ================================================================== *)
(** ** llm-compiler.js: the asset inventory and the persisted plan *)
(* ================================================================== *)

(** What [fs.readdir(dir, { withFileTypes: true })] finds under the asset
    directory: files, and directories with their own listing ([None] when
    reading the directory throws). *)
Inductive DirItem : Type :=
| FileItem (name : string)
| SubDir (name : string) (listing : option (list DirItem)).

Module Inventory.

(** [s.replace(/^assets\//, '')] *)
Definition strip_assets_prefix (s : string) : string :=
  if startsWith s "assets/" then drop 7 s else s.

Section WithSeparator.

(** [path.sep] of the platform. *)
Variable sep : ascii.

(** [path.join(base, name)] for a name that [readdir] gives. *)
Definition path_join (base name : string) : string :=
  base ++ String sep name.

(** [rel.split(path.sep).join('/')] *)
Definition to_posix (rel : string) : string :=
  join "/" (split rel (String sep "")).

(** [walk(dir, base)] on one item of the listing of [dir]: a file gives
    its relative path, a directory what its own walk gives, which is
    nothing when its [readdir] throws. *)
Fixpoint walk_item (base : string) (it : DirItem) : list string :=
  match it with
  | FileItem name => [to_posix (path_join base name)]
  | SubDir name None => []
  | SubDir name (Some items) =>
      flat_map (walk_item (path_join base name)) items
  end.

(** [walk(dir, base)] *)
Definition walk (base : string) (listing : option (list DirItem))
  : list string :=
  match listing with
  | None => []
  | Some items => flat_map (walk_item base) items
  end.

(** [listAssetFiles()] *)
Definition listAssetFiles (assets_dir : option (list DirItem)) : list string :=
  walk "assets" assets_dir.

End WithSeparator.

(** The names of the items of a tree. *)
Fixpoint item_names (it : DirItem) : list string :=
  match it with
  | FileItem name => [name]
  | SubDir name None => [name]
  | SubDir name (Some items) => name :: flat_map item_names items
  end.

Definition tree_names (listing : option (list DirItem)) : list string :=
  match listing with
  | None => []
  | Some items => flat_map item_names items
  end.

(** The names of the assets as the system prompt lists them:
    [assetsList.map(a => a.replace(/^assets\//, ''))]. *)
Definition prompt_asset_names (assets : list string) : list string :=
  map strip_assets_prefix assets.

(** [base.replace(/\/$/, '')]: one slash at the very end is removed. *)
Fixpoint strip_trailing_slash (s : string) : string :=
  match s with
  | EmptyString => ""
  | String c EmptyString => if Ascii.eqb c slash then "" else s
  | String c s' => String c (strip_trailing_slash s')
  end.

(** [`${base}/chat/completions`] for the configured [openAIBase]. *)
Definition chat_completions_url (openAIBase : string) : string :=
  strip_trailing_slash openAIBase ++ "/chat/completions".

(** The payload that a fresh compilation writes to the cache file. *)
Definition persisted_plan (env : Env) (calls : list JsVal)
           (created_at : string) (source_m : Z) (model_name base : string)
  : CompiledPlan :=
  {| toolCalls := calls;
     createdAt := created_at;
     sourceMTimeMs := source_m;
     model := model_name;
     openAIBase := base;
     assetsSignature := assets_signature (assetsList env) |}.

(** The cache file after [fs.writeFile] at the time [written_at]. *)
Definition written_cache (plan : CompiledPlan) (written_at : Z) : CacheFile :=
  {| cache_mtimeMs := written_at; cache_parsed := Some (plan_json plan) |}.

End Inventory.
Import Inventory.

(* ================================================================== *)
(** ** What the store holds, and which calls leave it alone *)
(* ================================================================== *)

Module Shape.

(** A rule as [add_dynamic_content] pushes them. *)
Definition well_formed_rule (d : DynamicEntry) : Prop :=
  placeholder d <> "" /\ type d = "CURRENT_TIME".

(** A store whose paths start with a slash and are all different, and
    whose rules are well formed. *)
Definition well_formed_pages (ps : Pages) : Prop :=
  NoDup (map fst ps)
  /\ Forall (fun kp => startsWith (fst kp) "/" = true
                       /\ Forall well_formed_rule (dynamic (snd kp))) ps.

(** The test of the replay loop for a call that it skips. *)
Definition is_skipped (call : JsVal) : bool :=
  if truthy (call_name call) then
    match String_ (call_name call) with
    | Some key =>
        match tools_member key with
        | Some _ => false
        | None => true
        end
    | None => false
    end
  else true.

(** A tool call in the flat shape [{ name, arguments }]. *)
Definition flat_call (name : string) (args : JsVal) : JsVal :=
  JObj [("name", JStr name); ("arguments", args)].

(** The store at the end of a run, or the exception. *)
Definition outcome (r : Result Build) : Result Ctx :=
  b <- r ;; OK (ctx b).

(** Every character [c] of [s] turned into [d]. *)
Fixpoint subst_char (c d : ascii) (s : string) : string :=
  match s with
  | EmptyString => ""
  | String x s' => String (if Ascii.eqb x c then d else x) (subst_char c d s')
  end.

End Shape.
Import Shape.

Module MoreSamples.

(** An asset directory: a file at the top, an image folder, and a folder
    that cannot be read. *)
Definition sample_assets : option (list DirItem) :=
  Some [ FileItem "logo.svg";
         SubDir "images" (Some [FileItem "test.png"; FileItem "hero.jpg"]);
         SubDir "private" None ].

Definition sample_layout_args : JsVal :=
  JObj [("header_html", JStr "<header>"); ("footer_html", JStr "<footer>")].

Definition two_rule_page : Page :=
  {| content := "{{A}} and {{B}}";
     dynamic := [ {| placeholder := "{{A}}"; type := "CURRENT_TIME" |};
                  {| placeholder := "{{B}}"; type := "CURRENT_TIME" |} ] |}.

(** A build that finds no cache and compiles [calls] at source time 100. *)
Definition first_env : Env :=
  {| source_mtimeMs := Some 100%Z;
     cache_file := None;
     assetsList := ["assets/images/b.png"; "assets/images/a.png"];
     apiKey := Some "key";
     model_tool_calls := OK [create_page_call "/" "A"] |}.

(** The next build: the file written at 120 is there, the listing comes
    in another order, and there is no key any more. *)
Definition second_env : Env :=
  {| source_mtimeMs := Some 100%Z;
     cache_file :=
       Some (written_cache
               (persisted_plan first_env [create_page_call "/" "A"]
                  "2026-11-01T23:25:00.000Z" 100 "gemini-2.5-pro"
                  "https://generativelanguage.googleapis.com/v1beta/openai")
               120);
     assetsList := ["assets/images/a.png"; "assets/images/b.png"];
     apiKey := None;
     model_tool_calls := Throw (Error "offline") |}.

End MoreSamples.
Import MoreSamples.

(* ================================================================== *)
(** * Properties *)
(* ================================================================== *)

(** ** The primitives on concrete inputs *)

Example split_cuts_at_every_occurrence :
  split "a{{T}}b{{T}}" "{{T}}" = ["a"; "b"; ""]
  /\ split "aaa" "aa" = [""; "a"]
  /\ split "" "x" = [""]
  /\ split "abc" "" = ["a"; "b"; "c"].
Proof. repeat split. Qed.

Example replace_reads_dollar_patterns :
  replace "X{{IMG}}Y" "{{IMG}}" "<$&|$$|$1|$`|$'|$>" = "X<{{IMG}}|$|$1|X|Y|$>Y"
  /\ replace "X{{IMG}}Y{{IMG}}" "{{IMG}}" "i" = "XiY{{IMG}}"
  /\ replace "XY" "{{IMG}}" "i" = "XY".
Proof. repeat split. Qed.

Example normalize_asset_cleans_separators :
  normalize_asset "/images/a.png" = "images/a.png"
  /\ normalize_asset ("images" ++ String backslash "a.png") = "images/a.png"
  /\ normalize_asset (String backslash (String backslash "a.png")) = "a.png"
  /\ normalize_asset (String backslash "/a.png") = "/a.png".
Proof. repeat split. Qed.

Example String_of_values :
  String_ (JArr [JNum "1"; JNull; JStr "a"; JArr [JBool true]]) = Some "1,,a,true"
  /\ String_ (JObj [("path", JStr "/")]) = Some "[object Object]"
  /\ String_ (JObj [("toString", JNull)]) = None.
Proof. repeat split. Qed.

Example tools_members :
  tools_member "create_page" = Some Tool_create_page
  /\ tools_member "render_page" = None
  /\ tools_member "__proto__" = None
  /\ tools_member "toString" = Some Inherited_returns
  /\ tools_member "hasOwnProperty" = Some Inherited_throws.
Proof. repeat split. Qed.

Example tools_check_their_arguments :
  create_page (ctx fresh_build) (JObj [("path", JStr "about"); ("content", JStr "A")])
  = Throw create_page_path_error
  /\ create_page (ctx fresh_build) (JObj [("path", JStr "/"); ("content", JNum "1")])
     = Throw create_page_content_error
  /\ add_asset (ctx fresh_build) (JObj [("path", JStr "/"); ("asset", JStr "")])
     = Throw add_asset_asset_error
  /\ add_dynamic_content (ctx fresh_build)
       (JObj [("path", JStr "/"); ("placeholder", JStr "{{T}}"); ("type", JStr "RANDOM")])
     = Throw add_dynamic_content_type_error
  /\ set_layout (ctx fresh_build) JNull
     = OK {| pages := []; layout := {| header_html := ""; footer_html := "" |} |}.
Proof. repeat split. Qed.

Example assets_signature_sorts :
  assets_signature ["assets/images/b.png"; "assets/a.txt"; "assets/images/a.png"]
  = assets_signature ["assets/a.txt"; "assets/images/a.png"; "assets/images/b.png"]
  /\ assets_signature ["assets/a.txt"; "assets/images/a.png"]
     = "[" ++ quoted "assets/a.txt" ++ "," ++ quoted "assets/images/a.png" ++ "]"
  /\ assets_signature [] = "[]".
Proof. repeat split. Qed.

(** ** Facts on strings *)

Section StringFacts.

Lemma append_nil_r (s : string) : s ++ "" = s.
Proof. induction s as [|c s IH]; simpl; [reflexivity | now rewrite IH]. Qed.

Lemma append_assoc (a b c : string) : (a ++ b) ++ c = a ++ b ++ c.
Proof. induction a as [|x a IH]; simpl; [reflexivity | now rewrite IH]. Qed.

Lemma length_append (a b : string) :
  String.length (a ++ b) = String.length a + String.length b.
Proof. induction a as [|x a IH]; simpl; [reflexivity | now rewrite IH]. Qed.

Lemma append_eq_nil (a b : string) : a ++ b = "" -> a = "" /\ b = "".
Proof. destruct a; simpl; [auto | discriminate]. Qed.

(** Two ways of cutting the same string share the shorter first part. *)
Lemma append_eq_append (a b c d : string) :
  a ++ b = c ++ d ->
  exists l, (a = c ++ l /\ d = l ++ b) \/ (c = a ++ l /\ b = l ++ d).
Proof.
  revert c; induction a as [|x a IH]; intros c H.
  - exists c; right; simpl in *; auto.
  - destruct c as [|y c].
    + exists (String x a); left; simpl in *; auto.
    + simpl in H; injection H as -> H.
      destruct (IH _ H) as [l [[-> ->] | [-> ->]]]; exists l; simpl; auto.
Qed.

Lemma take_drop (n : nat) (s : string) : take n s ++ drop n s = s.
Proof.
  revert s; induction n as [|n IH]; intros [|c s]; simpl; try reflexivity.
  now rewrite IH.
Qed.


Lemma prefix_true (p s : string) :
  prefix p s = true <-> exists r, s = p ++ r.
Proof.
  revert s; induction p as [|c p IH]; intros s.
  - split; [exists s; reflexivity | now destruct s].
  - destruct s as [|d s]; simpl.
    + split; [discriminate | intros [r H]; discriminate].
    + destruct (ascii_dec c d) as [->|Hne].
      * rewrite IH; split; intros [r H]; exists r; [now rewrite H | now injection H].
      * split; [discriminate | intros [r H]; injection H; congruence].
Qed.

Lemma prefix_drop (p s : string) :
  prefix p s = true -> s = p ++ drop (String.length p) s.
Proof.
  intros H; apply prefix_true in H as [r ->].
  f_equal. induction p; simpl; auto.
Qed.

Lemma occurs_nil (p : string) : occurs p "" -> p = "".
Proof.
  intros (a & b & H); symmetry in H.
  apply append_eq_nil in H as [_ H]; now apply append_eq_nil in H.
Qed.

Lemma occurs_refl (s : string) : occurs s s.
Proof. exists "", ""; simpl; now rewrite append_nil_r. Qed.

Lemma occurs_trans (x y z : string) : occurs x y -> occurs y z -> occurs x z.
Proof.
  intros (a & b & ->) (c & d & ->).
  exists (c ++ a), (b ++ d). now rewrite !append_assoc.
Qed.



(** [indexOf] finds an occurrence... *)
Lemma indexOf_Some (p s : string) (j : nat) :
  indexOf p s = Some j ->
  s = take j s ++ p ++ drop (j + String.length p) s.
Proof.
  revert j; induction s as [|c s IH]; intros j; cbn [indexOf].
  - destruct (prefix p "") eqn:E; [|discriminate].
    intros [= <-]; simpl. now apply prefix_drop.
  - destruct (prefix p (String c s)) eqn:E.
    + intros [= <-]; simpl. now apply prefix_drop.
    + destruct (indexOf p s) as [k|]; simpl; [|discriminate].
      intros [= <-]; simpl. f_equal. now apply IH.
Qed.

(** ... the first one ... *)
Lemma indexOf_Some_first (p s : string) (j : nat) :
  p <> "" -> indexOf p s = Some j -> ~ occurs p (take j s).
Proof.
  intros Hp; revert j; induction s as [|c s IH]; intros j; cbn [indexOf].
  - destruct (prefix p "") eqn:E; [|discriminate].
    intros _ H. destruct j; simpl in H; now apply occurs_nil in H.
  - destruct (prefix p (String c s)) eqn:E.
    + intros [= <-] H; simpl in H; now apply occurs_nil in H.
    + destruct (indexOf p s) as [k|] eqn:Ek; simpl; [|discriminate].
      intros [= <-] (a & b & H); simpl in H.
      destruct a as [|x a]; simpl in H.
      * assert (prefix p (String c s) = true); [|congruence].
        apply prefix_true. exists (b ++ drop k s).
        rewrite <- append_assoc, <- H; simpl. now rewrite take_drop.
      * injection H as _ H. apply (IH k eq_refl). now exists a, b.
Qed.

(** ... and fails only when there is none. *)
Lemma indexOf_None (p s : string) : indexOf p s = None -> ~ occurs p s.
Proof.
  induction s as [|c s IH]; cbn [indexOf].
  - destruct (prefix p "") eqn:E; [discriminate|].
    intros _ H; apply occurs_nil in H; subst; discriminate.
  - destruct (prefix p (String c s)) eqn:E; [discriminate|].
    destruct (indexOf p s) as [k|]; simpl; [discriminate|].
    intros _ (a & b & H). destruct a as [|x a]; simpl in H.
    + assert (prefix p (String c s) = true); [|congruence].
      apply prefix_true; now exists b.
    + injection H as _ H. apply IH; [reflexivity | now exists a, b].
Qed.

End StringFacts.

Section SplitJoinFacts.

Lemma join_cons (sep x : string) (l : list string) :
  l <> [] -> join sep (x :: l) = x ++ sep ++ join sep l.
Proof. destruct l; [congruence | reflexivity]. Qed.

Lemma split_loop_nonempty (fuel : nat) (sep s : string) :
  split_loop fuel sep s <> [].
Proof.
  destruct fuel; simpl; destruct (indexOf sep s); discriminate.
Qed.

Lemma indexOf_Some_length (p s : string) (j : nat) :
  indexOf p s = Some j ->
  String.length s
  = String.length (take j s) + String.length p
    + String.length (drop (j + String.length p) s).
Proof.
  intros H; apply indexOf_Some in H.
  rewrite H at 1. rewrite !length_append. lia.
Qed.

(** The pieces of a split, put back around the separator, give the
    string again. *)
Lemma join_split_loop (fuel : nat) (sep s : string) :
  join sep (split_loop fuel sep s) = s.
Proof.
  revert s; induction fuel as [|f IH]; intros s; simpl;
    destruct (indexOf sep s) as [j|] eqn:E; try reflexivity.
  rewrite join_cons by apply split_loop_nonempty.
  rewrite IH. symmetry; now apply indexOf_Some.
Qed.

(** No piece of a split holds the separator. *)
Lemma split_loop_pieces_free (fuel : nat) (sep s : string) :
  sep <> "" -> String.length s <= fuel ->
  Forall (fun x => ~ occurs sep x) (split_loop fuel sep s).
Proof.
  intros Hsep; revert s; induction fuel as [|f IH]; intros s Hlen; simpl;
    destruct (indexOf sep s) as [j|] eqn:E;
    try (constructor; [now apply indexOf_None | constructor]).
  - destruct s; [|simpl in Hlen; lia].
    cbn [indexOf] in E. destruct (prefix sep "") eqn:P; [|discriminate].
    apply prefix_true in P as [r P]. symmetry in P.
    apply append_eq_nil in P as [P _]. contradiction.
  - constructor; [now apply indexOf_Some_first|].
    apply IH. pose proof (indexOf_Some_length _ _ _ E) as L.
    assert (String.length sep <> 0) by (destruct sep; simpl; congruence).
    lia.
Qed.

(** Every piece of a split is a part of the string. *)
Lemma split_loop_pieces_parts (fuel : nat) (sep s : string) :
  Forall (fun x => occurs x s) (split_loop fuel sep s).
Proof.
  revert s; induction fuel as [|f IH]; intros s; simpl;
    destruct (indexOf sep s) as [j|] eqn:E;
    try (constructor; [apply occurs_refl | constructor]).
  pose proof (indexOf_Some _ _ _ E) as Hs.
  constructor.
  - exists "", (sep ++ drop (j + String.length sep) s). simpl. exact Hs.
  - eapply Forall_impl; [|apply IH].
    intros x Hx; cbv beta in Hx. eapply occurs_trans; [exact Hx|].
    exists (take j s ++ sep), "".
    rewrite append_nil_r, append_assoc. exact Hs.
Qed.

Lemma has_char_append (c : ascii) (a b : string) :
  has_char c (a ++ b) = has_char c a || has_char c b.
Proof.
  induction a as [|x a IH]; simpl; [reflexivity|].
  now rewrite IH, orb_assoc.
Qed.

(** [meets a b] holds as soon as some non-empty end of [a] is a start
    of [b], or has [b] as a start. *)
Lemma meets_intro (a b u s : string) :
  a = u ++ s -> s <> "" ->
  prefix s b = true \/ prefix b s = true ->
  meets a b = true.
Proof.
  intros -> Hs H. induction u as [|c u IH]; simpl.
  - destruct s as [|c s]; [contradiction|]. cbn [meets].
    destruct H as [-> | ->]; [reflexivity | now rewrite orb_true_r].
  - rewrite IH. now rewrite orb_true_r.
Qed.

Lemma separate_true (q now : string) :
  separate q now = true ->
  q <> "" /\ meets q now = false /\ meets now q = false.
Proof.
  unfold separate. intros H.
  apply andb_true_iff in H as [H H3]. apply andb_true_iff in H as [H1 H2].
  apply negb_true_iff in H1, H2, H3.
  repeat split; auto. intros ->. discriminate.
Qed.

Lemma separate_nonempty (q now : string) :
  separate q now = true -> q <> "" /\ now <> "".
Proof.
  intros H. apply separate_true in H as (Hq & H1 & _). split; [exact Hq|].
  intros ->. destruct q as [|c q]; [contradiction|].
  cbn [meets] in H1. simpl in H1. discriminate.
Qed.

(** A text free of [q] stays so when a text separate from [q] is put
    between two such texts. *)
Lemma glue_free (q x now y : string) :
  separate q now = true ->
  ~ occurs q x -> ~ occurs q y -> ~ occurs q (x ++ now ++ y).
Proof.
  intros Hsep Hx Hy (a & b & H).
  apply separate_true in Hsep as (_ & Hqn & Hnq).
  apply append_eq_append in H as [l [[Hxa H] | [Ha H]]].
  - (* the occurrence starts inside [x] *)
    apply append_eq_append in H as [l' [[Hl H] | [Hl H]]].
    + (* and runs into [now]: its end [l'] lies over the start of [now] *)
      destruct (string_dec l' "") as [-> | Hl'].
      * apply Hx. exists a, "". rewrite !append_nil_r in *. congruence.
      * assert (E : meets q now = true); [|congruence].
        apply (meets_intro q now l l' Hl Hl').
        apply append_eq_append in H as [k [[H _] | [H _]]].
        -- left. apply prefix_true. now exists k.
        -- right. apply prefix_true. now exists k.
    + apply Hx. exists a, l'. congruence.
  - (* the occurrence starts at the end of [x] or later *)
    apply append_eq_append in H as [l' [[Hl H] | [Hl H]]].
    + (* inside [now]: the end [l'] of [now] lies over the start of [q] *)
      destruct (string_dec l' "") as [-> | Hl'].
      * apply Hy. exists "", b. simpl in *. congruence.
      * assert (E : meets now q = true); [|congruence].
        apply (meets_intro now q l l' Hl Hl').
        apply append_eq_append in H as [k [[H _] | [H _]]].
        -- left. apply prefix_true. now exists k.
        -- right. apply prefix_true. now exists k.
    + (* after [now] *)
      apply Hy. now exists l', b.
Qed.

Lemma join_free (q now : string) (pieces : list string) :
  separate q now = true ->
  Forall (fun x => ~ occurs q x) pieces ->
  ~ occurs q (join now pieces).
Proof.
  intros Hap; induction pieces as [|x l IH]; intros H.
  - intros Ho; apply occurs_nil in Ho.
    now apply separate_nonempty in Hap as [? _].
  - inversion H as [|? ? Hx Hl]; subst.
    destruct l as [|y l]; [exact Hx|].
    rewrite join_cons by discriminate.
    apply glue_free; auto.
Qed.

End SplitJoinFacts.

(** ** Facts on the page store *)

Section StoreFacts.

Lemma lookup_modify_same (p : string) (f : Page -> Page) (ps : Pages) (pg : Page) :
  lookup p ps = Some pg -> lookup p (modify p f ps) = Some (f pg).
Proof.
  unfold lookup; induction ps as [|[k x] ps IH]; simpl; [discriminate|].
  destruct (String.eqb k p) eqn:E; simpl; rewrite E.
  - now intros [= ->].
  - exact IH.
Qed.

Lemma lookup_modify_other (p q : string) (f : Page -> Page) (ps : Pages) :
  q <> p -> lookup q (modify p f ps) = lookup q ps.
Proof.
  intros Hne; unfold lookup; induction ps as [|[k x] ps IH]; simpl; [reflexivity|].
  destruct (String.eqb k p) eqn:E; simpl.
  - apply String.eqb_eq in E; subst k.
    apply String.eqb_neq in Hne. rewrite String.eqb_sym in Hne. now rewrite Hne.
  - now rewrite IH.
Qed.

Lemma keys_modify (p : string) (f : Page -> Page) (ps : Pages) :
  map fst (modify p f ps) = map fst ps.
Proof.
  induction ps as [|[k x] ps IH]; simpl; [reflexivity|].
  destruct (String.eqb k p); simpl; [reflexivity | now rewrite IH].
Qed.

Lemma ensure_page_present (p : string) (ps : Pages) (pg : Page) :
  lookup p ps = Some pg -> ensure_page p ps = ps.
Proof. unfold ensure_page; now intros ->. Qed.

Lemma lookup_app_new (q p : string) (ps : Pages) (pg : Page) :
  lookup q (ps ++ [(p, pg)])%list
  = match lookup q ps with
    | Some x => Some x
    | None => if String.eqb p q then Some pg else None
    end.
Proof.
  unfold lookup; induction ps as [|[k x] ps IH]; simpl; [reflexivity|].
  destruct (String.eqb k q); [reflexivity | exact IH].
Qed.

Lemma lookup_ensure_page_same (p : string) (ps : Pages) :
  lookup p (ensure_page p ps)
  = match lookup p ps with Some pg => Some pg | None => Some empty_page end.
Proof.
  unfold ensure_page; destruct (lookup p ps) eqn:E; [exact E|].
  rewrite lookup_app_new, E. now rewrite String.eqb_refl.
Qed.

Lemma lookup_ensure_page_other (p q : string) (ps : Pages) :
  q <> p -> lookup q (ensure_page p ps) = lookup q ps.
Proof.
  intros Hne; unfold ensure_page; destruct (lookup p ps); [reflexivity|].
  rewrite lookup_app_new. destruct (lookup q ps); [reflexivity|].
  apply String.eqb_neq in Hne. rewrite String.eqb_sym in Hne. now rewrite Hne.
Qed.

(** What [pages[p] = pages[p] || {...}] followed by a mutation of
    [pages[p]] leaves under [p] and under the other paths. *)
Lemma lookup_upsert_same (p : string) (f : Page -> Page) (ps : Pages) :
  lookup p (modify p f (ensure_page p ps))
  = Some (f (match lookup p ps with Some pg => pg | None => empty_page end)).
Proof.
  pose proof (lookup_ensure_page_same p ps) as H.
  destruct (lookup p ps); now apply lookup_modify_same.
Qed.

Lemma lookup_upsert_other (p q : string) (f : Page -> Page) (ps : Pages) :
  q <> p -> lookup q (modify p f (ensure_page p ps)) = lookup q ps.
Proof.
  intros H. rewrite lookup_modify_other by exact H.
  now apply lookup_ensure_page_other.
Qed.

(** A property that is read makes the arguments an object, which
    [args || {}] leaves alone. *)
Lemma args_or_empty_object (args : JsVal) (k : string) :
  get_prop args k <> JUndef -> args_or_empty args = args.
Proof. destruct args; simpl; try congruence; reflexivity. Qed.

Lemma create_page_returns (c : Ctx) (args : JsVal) (p new : string) :
  get_prop args "path" = JStr p -> startsWith p "/" = true ->
  get_prop args "content" = JStr new ->
  create_page c args
  = OK (with_pages c (modify p (set_content new) (ensure_page p (pages c)))).
Proof.
  intros Hp Hs Hc. unfold create_page.
  rewrite (args_or_empty_object args "path") by (rewrite Hp; discriminate).
  rewrite Hp, Hc. unfold valid_path. now rewrite Hs.
Qed.

End StoreFacts.

(** C10: [create_page] on a path that the store already holds returns
    normally and replaces the content of that page only: the page keeps its
    list of dynamic rules, every other page is the one it was, the paths
    and their order are the same, and the layout is untouched. *)
Theorem create_page_overwrites_content_only
        (c : Ctx) (args : JsVal) (p new : string) (pg : Page) :
  get_prop args "path" = JStr p -> startsWith p "/" = true ->
  get_prop args "content" = JStr new ->
  lookup p (pages c) = Some pg ->
  exists c',
    create_page c args = OK c'
    /\ lookup p (pages c') = Some {| content := new; dynamic := dynamic pg |}
    /\ (forall q, q <> p -> lookup q (pages c') = lookup q (pages c))
    /\ map fst (pages c') = map fst (pages c)
    /\ List.length (pages c') = List.length (pages c)
    /\ layout c' = layout c.
Proof.
  intros Hp Hs Hc Hl.
  eexists; split; [apply create_page_returns; eassumption|].
  simpl. rewrite (ensure_page_present _ _ _ Hl).
  repeat split.
  - now rewrite (lookup_modify_same _ _ _ _ Hl).
  - intros q Hq. now apply lookup_modify_other.
  - apply keys_modify.
  - rewrite <- (length_map fst), keys_modify. apply length_map.
Qed.

Lemma create_page_overwrites_content_only_witness :
  exists c',
    create_page
      {| pages := [("/", {| content := "old"; dynamic := [current_time_rule] |});
                   ("/about", {| content := "About"; dynamic := [] |})];
         layout := {| header_html := "<H>"; footer_html := "<F>" |} |}
      (JObj [("path", JStr "/"); ("content", JStr "new")]) = OK c'
    /\ lookup "/" (pages c')
       = Some {| content := "new"; dynamic := [current_time_rule] |}.
Proof.
  destruct (create_page_overwrites_content_only
              {| pages := [("/", {| content := "old"; dynamic := [current_time_rule] |});
                           ("/about", {| content := "About"; dynamic := [] |})];
                 layout := {| header_html := "<H>"; footer_html := "<F>" |} |}
              (JObj [("path", JStr "/"); ("content", JStr "new")])
              "/" "new" {| content := "old"; dynamic := [current_time_rule] |}
              eq_refl eq_refl eq_refl eq_refl) as (c' & H1 & H2 & _).
  exists c'. split; [exact H1 | exact H2].
Defined.

(** ** The render path *)

Section RenderFacts.

Lemma stitch_is_concatenation (header body footer : string) :
  stitch header body footer = header ++ body ++ footer.
Proof.
  unfold stitch. destruct header as [|c h]; simpl; [|reflexivity].
  destruct footer as [|d f]; simpl; [|reflexivity].
  now rewrite append_nil_r.
Qed.

Lemma split_nonempty_separator (s sep : string) :
  sep <> "" -> split s sep = split_loop (String.length s) sep s.
Proof. destruct sep; [congruence | reflexivity]. Qed.

(** The pieces that [split] cuts [s] into: around the separator they
    give [s] back, and none of them holds the separator. *)
Lemma split_pieces (s sep : string) :
  sep <> "" ->
  join sep (split s sep) = s
  /\ Forall (fun x => ~ occurs sep x) (split s sep)
  /\ Forall (fun x => occurs x s) (split s sep).
Proof.
  intros H. rewrite (split_nonempty_separator _ _ H). repeat split.
  - apply join_split_loop.
  - now apply split_loop_pieces_free.
  - apply split_loop_pieces_parts.
Qed.

(** One replacement leaves no occurrence of the placeholder it
    replaces... *)
Lemma replaced_free (p now html : string) :
  separate p now = true -> ~ occurs p (join now (split html p)).
Proof.
  intros Hap. apply join_free; auto.
  apply split_pieces. now apply separate_nonempty in Hap.
Qed.

(** ... and brings no occurrence of another text [q] that was absent. *)
Lemma replaced_keeps_free (q p now html : string) :
  p <> "" -> separate q now = true ->
  ~ occurs q html -> ~ occurs q (join now (split html p)).
Proof.
  intros Hp Hap Hfree. apply join_free; auto.
  destruct (split_pieces html p Hp) as (_ & _ & Hparts).
  eapply Forall_impl; [|exact Hparts].
  intros x Hx Hqx. apply Hfree. eapply occurs_trans; eassumption.
Qed.

(** A text that holds the separator is cut into two pieces at least. *)
Lemma split_present (s sep : string) :
  sep <> "" -> occurs sep s ->
  exists x y rest, split s sep = x :: y :: rest.
Proof.
  intros Hsep Ho. rewrite (split_nonempty_separator _ _ Hsep).
  destruct (indexOf sep s) as [k|] eqn:E;
    [|now apply indexOf_None in E].
  destruct (String.length s) as [|f] eqn:El.
  - destruct s; [|discriminate].
    apply occurs_nil in Ho. contradiction.
  - cbn [split_loop]. rewrite E.
    pose proof (split_loop_nonempty f sep
                  (drop (k + String.length sep) s)) as Hne.
    destruct (split_loop f sep (drop (k + String.length sep) s))
      as [|y rest]; [contradiction|].
    now exists (take k s), y, rest.
Qed.

(** The rules of a list are applied one after the other: those of a
    second list work on the text and the clock that the first left. *)
Lemma applyDynamicReplacements_app
      (now : Clock) (l1 l2 : list DynamicEntry) (t : nat) (html : string) :
  applyDynamicReplacements now t html (l1 ++ l2)%list
  = applyDynamicReplacements now
      (snd (applyDynamicReplacements now t html l1))
      (fst (applyDynamicReplacements now t html l1)) l2.
Proof.
  revert t html; induction l1 as [|e l1 IH]; intros t html; simpl.
  - reflexivity.
  - destruct (String.eqb (placeholder e) ""); [apply IH|].
    destruct (String.eqb (type e) "CURRENT_TIME"); apply IH.
Qed.

Variable now : Clock.
Variable q : string.

(** Rules whose timestamps are separate from [q] bring no occurrence of
    [q] into a text that has none.  Only the readings the rules can make
    count: those numbered from [t] on, one per rule at most. *)
Lemma applyDynamicReplacements_keeps_free
      (dynamic : list DynamicEntry) (t : nat) (html : string) :
  (forall k, t <= k < t + List.length dynamic -> separate q (now k) = true) ->
  ~ occurs q html ->
  ~ occurs q (fst (applyDynamicReplacements now t html dynamic)).
Proof.
  revert t html; induction dynamic as [|e rest IH]; intros t html Hsep H; simpl.
  - exact H.
  - assert (Hrest : forall k, t <= k < t + List.length rest ->
                              separate q (now k) = true)
      by (intros k Hk; apply Hsep; simpl; lia).
    destruct (String.eqb (placeholder e) "") eqn:Ee; [now apply IH|].
    destruct (String.eqb (type e) "CURRENT_TIME"); [|now apply IH].
    apply IH.
    + intros k Hk. apply Hsep. simpl. lia.
    + apply String.eqb_neq in Ee. apply replaced_keeps_free; auto.
      apply Hsep. simpl. lia.
Qed.

Lemma applyDynamicReplacements_frees
      (dynamic : list DynamicEntry) (t : nat) (html : string) (e : DynamicEntry) :
  (forall k, t <= k < t + List.length dynamic -> separate q (now k) = true) ->
  In e dynamic -> placeholder e = q -> type e = "CURRENT_TIME" ->
  ~ occurs q (fst (applyDynamicReplacements now t html dynamic)).
Proof.
  intros Hsep Hin Hp Ht. revert t html Hsep.
  induction dynamic as [|d rest IH]; intros t html Hsep; [contradiction|].
  assert (Hrest : forall k, t <= k < t + List.length rest ->
                            separate q (now k) = true)
    by (intros k Hk; apply Hsep; simpl; lia).
  assert (Hnext : forall k, S t <= k < S t + List.length rest ->
                            separate q (now k) = true)
    by (intros k Hk; apply Hsep; simpl; lia).
  assert (Ht0 : separate q (now t) = true) by (apply Hsep; simpl; lia).
  destruct Hin as [->|Hin].
  - simpl. rewrite Hp, Ht.
    destruct (separate_nonempty _ _ Ht0) as [Hq _].
    apply String.eqb_neq in Hq. rewrite Hq. simpl.
    apply applyDynamicReplacements_keeps_free; [exact Hnext|].
    now apply replaced_free.
  - simpl. destruct (String.eqb (placeholder d) ""); [now apply IH|].
    destruct (String.eqb (type d) "CURRENT_TIME"); now apply IH.
Qed.

End RenderFacts.

(** C6: the text a route handler sends is the header, the body after the
    dynamic replacements, and the footer, one after the other; when the
    header and the footer are both empty it is that body and nothing
    else. *)
Theorem handler_stitches_layout :
  (forall (l : Layout) (page : Page) (now : Clock) (t : nat),
      fst (handler l page now t)
      = header_html l
        ++ fst (applyDynamicReplacements now t (content page) (dynamic page))
        ++ footer_html l)
  /\ (forall (page : Page) (now : Clock) (t : nat),
         fst (handler {| header_html := ""; footer_html := "" |} page now t)
         = fst (applyDynamicReplacements now t (content page) (dynamic page)))
  /\ fst (handler {| header_html := "<H>"; footer_html := "<F>" |}
                  {| content := "B"; dynamic := [] |} us_clock 0) = "<H>B<F>"
  /\ fst (handler {| header_html := ""; footer_html := "" |}
                  {| content := "B"; dynamic := [] |} us_clock 0) = "B".
Proof.
  repeat split.
  - intros l page now t. unfold handler.
    destruct (applyDynamicReplacements now t (content page) (dynamic page)).
    simpl. apply stitch_is_concatenation.
  - intros page now t. unfold handler.
    destruct (applyDynamicReplacements now t (content page) (dynamic page)).
    reflexivity.
Qed.

(** C5, the claim as worded fails: [add_dynamic_content] takes any
    placeholder that is not empty.  With the placeholder [":"] and a clock
    that prints the time of day, every occurrence in the stored body is
    replaced by a non-empty timestamp, and the text sent holds the
    placeholder all the same, inside the timestamp. *)
Lemma current_time_output_may_hold_placeholder :
  replay JSON_parse_sample colon_calls fresh_build
  = OK {| ctx := {| pages := [("/", colon_page)]; layout := no_layout |};
          warnings := [] |}
  /\ fst (handler no_layout colon_page us_clock 0) = "Now11/1/2026, 11:25:00 PM "
  /\ us_clock 0 <> ""
  /\ occurs (placeholder colon_rule) (fst (handler no_layout colon_page us_clock 0)).
Proof.
  split; [reflexivity|]. split; [reflexivity|]. split; [discriminate|].
  exists "Now11/1/2026, 11", "25:00 PM ". reflexivity.
Qed.

(** C5, amended: rendering a page applies its rules in the order they
    were added.  Each [CURRENT_TIME] rule with a non-empty placeholder
    cuts the body as the rules before it left it (the stored body for
    the first rule, timestamps put in by earlier rules included) at every
    occurrence of its placeholder, no piece between two cuts holding the
    placeholder, and puts in each cut one timestamp, read for that rule
    and that request.  The body so rendered holds no occurrence of the
    placeholder of a [CURRENT_TIME] rule of the page provided the
    placeholder is separate from the timestamps read during the request:
    no end of one is a start of the other and neither occurs in the
    other.  It does hold the placeholder of the last rule when that
    placeholder occurs both in the body the rule cuts and in the
    timestamp it puts in. *)
Theorem current_time_replaces_every_occurrence :
  (forall (now : Clock) (t : nat) (html : string)
          (pre : list DynamicEntry) (e : DynamicEntry) (post : list DynamicEntry),
      type e = "CURRENT_TIME" -> placeholder e <> "" ->
      exists pieces,
        fst (applyDynamicReplacements now t html pre)
        = join (placeholder e) pieces
        /\ Forall (fun x => ~ occurs (placeholder e) x) pieces
        /\ applyDynamicReplacements now t html (pre ++ e :: post)%list
           = applyDynamicReplacements now
               (S (snd (applyDynamicReplacements now t html pre)))
               (join (now (snd (applyDynamicReplacements now t html pre)))
                     pieces)
               post)
  /\ (forall (now : Clock) (t : nat) (page : Page) (e : DynamicEntry),
         In e (dynamic page) ->
         type e = "CURRENT_TIME" ->
         (forall k, t <= k < t + List.length (dynamic page) ->
                    separate (placeholder e) (now k) = true) ->
         ~ occurs (placeholder e)
             (fst (applyDynamicReplacements now t (content page) (dynamic page))))
  /\ (forall (now : Clock) (t : nat) (html : string)
             (pre : list DynamicEntry) (e : DynamicEntry),
         type e = "CURRENT_TIME" -> placeholder e <> "" ->
         occurs (placeholder e) (fst (applyDynamicReplacements now t html pre)) ->
         occurs (placeholder e)
                (now (snd (applyDynamicReplacements now t html pre))) ->
         occurs (placeholder e)
                (fst (applyDynamicReplacements now t html (pre ++ [e])%list))).
Proof.
  split; [|split].
  - intros now t html pre e post Ht Hp.
    exists (split (fst (applyDynamicReplacements now t html pre)) (placeholder e)).
    destruct (split_pieces (fst (applyDynamicReplacements now t html pre))
                (placeholder e) Hp) as (Hj & Hfree & _).
    repeat split; auto.
    rewrite applyDynamicReplacements_app. simpl.
    apply String.eqb_neq in Hp. rewrite Hp, Ht. reflexivity.
  - intros now t page e Hin Ht Hsep.
    eapply applyDynamicReplacements_frees; eauto.
  - intros now t html pre e Ht Hp Hbody Hnow.
    rewrite applyDynamicReplacements_app. simpl.
    pose proof Hp as Hp'. apply String.eqb_neq in Hp'. rewrite Hp', Ht. simpl.
    destruct (split_present _ _ Hp Hbody) as (x & y & rest & ->).
    rewrite join_cons by discriminate.
    eapply occurs_trans; [exact Hnow|].
    now exists x, (join (now (snd (applyDynamicReplacements now t html pre)))
                     (y :: rest)).
Qed.

Lemma current_time_replaces_every_occurrence_witness :
  (exists pieces,
      "Now: {{CURRENT_TIME}}" = join "{{CURRENT_TIME}}" pieces
      /\ applyDynamicReplacements us_clock 0 "Now: {{CURRENT_TIME}}"
           [current_time_rule]
         = (join (us_clock 0) pieces, 1))
  /\ ~ occurs "{{CURRENT_TIME}}"
       (fst (applyDynamicReplacements us_clock 0 (content now_page)
               (dynamic now_page)))
  /\ ~ occurs "{{TIME_1}}"
       (fst (applyDynamicReplacements us_clock 0 "At {{TIME_1}}, {{TIME_1}}"
               [{| placeholder := "{{TIME_1}}"; type := "CURRENT_TIME" |}]))
  /\ ~ occurs "{{CURRENT_TIME}}"
       (fst (applyDynamicReplacements
               (fun _ => "Monday, November 2, 2026 at 11:25:00 PM") 0
               (content now_page) (dynamic now_page)))
  /\ occurs ":"
       (fst (applyDynamicReplacements us_clock 0 "a{{A}}b"
               [{| placeholder := "{{A}}"; type := "CURRENT_TIME" |};
                {| placeholder := ":"; type := "CURRENT_TIME" |}])).
Proof.
  destruct current_time_replaces_every_occurrence as (H1 & H2 & H3).
  split; [|split; [|split; [|split]]].
  - destruct (H1 us_clock 0 "Now: {{CURRENT_TIME}}" [] current_time_rule [])
      as (pieces & Ha & _ & Hb); [reflexivity | discriminate |].
    exists pieces. split; [exact Ha | exact Hb].
  - apply (H2 us_clock 0 now_page current_time_rule).
    + simpl. left. reflexivity.
    + reflexivity.
    + intros k _. reflexivity.
  - apply (H2 us_clock 0
              {| content := "At {{TIME_1}}, {{TIME_1}}";
                 dynamic := [{| placeholder := "{{TIME_1}}";
                                type := "CURRENT_TIME" |}] |}
              {| placeholder := "{{TIME_1}}"; type := "CURRENT_TIME" |}).
    + simpl. left. reflexivity.
    + reflexivity.
    + intros k _. reflexivity.
  - apply (H2 (fun _ => "Monday, November 2, 2026 at 11:25:00 PM") 0
              now_page current_time_rule).
    + simpl. left. reflexivity.
    + reflexivity.
    + intros k _. reflexivity.
  - apply (H3 us_clock 0 "a{{A}}b"
              [{| placeholder := "{{A}}"; type := "CURRENT_TIME" |}]
              {| placeholder := ":"; type := "CURRENT_TIME" |}).
    + reflexivity.
    + discriminate.
    + exists "a11/1/2026, 11", "25:00 PMb".
      reflexivity.
    + exists "11/1/2026, 11", "25:00 PM". reflexivity.
Defined.

(** ** The replay loop *)

Section ReplayFacts.

Variable JSON_parse : string -> option JsVal.


(** The rules of [turn] describe [exec_call]. *)
Lemma exec_call_turn (b : Build) (call : JsVal) :
  turn JSON_parse b call (exec_call JSON_parse b call).
Proof.
  unfold exec_call.
  destruct (truthy (call_name call)) eqn:Hname; simpl;
    [|now apply turn_no_name].
  unfold String_or_throw.
  destruct (String_ (call_name call)) as [key|] eqn:Hkey; simpl;
    [|now apply turn_bad_key].
  destruct (tools_member key) as [fn|] eqn:Hfn;
    [|now apply turn_unknown].
  destruct (parseToolArgs JSON_parse (call_argsRaw call)) as [args|e] eqn:Hargs;
    simpl;
    [|now apply turn_bad_args with key fn].
  destruct (call_member fn (ctx b) args) as [c|e] eqn:Hcall; simpl.
  - now apply turn_tool_returns with key fn args.
  - now apply turn_tool_throws with key fn args.
Qed.

Lemma turn_exec_call (b : Build) (call : JsVal) (r : Result Build) :
  turn JSON_parse b call r -> exec_call JSON_parse b call = r.
Proof.
  unfold exec_call, String_or_throw.
  intros H; inversion H; subst;
    repeat match goal with
           | E : _ = _ |- _ => rewrite E; clear E; simpl
           end; reflexivity.
Qed.

Lemma replay_replays (calls : list JsVal) (b : Build) :
  replays JSON_parse calls b (replay JSON_parse calls b).
Proof.
  revert b; induction calls as [|call rest IH]; intros b; simpl.
  - constructor.
  - pose proof (exec_call_turn b call) as Hturn.
    destruct (exec_call JSON_parse b call) as [b'|e]; simpl.
    + eapply replays_next; [exact Hturn | apply IH].
    + now apply replays_abort.
Qed.

Lemma replays_replay (calls : list JsVal) (b : Build) (r : Result Build) :
  replays JSON_parse calls b r -> replay JSON_parse calls b = r.
Proof.
  induction 1 as [b | call rest b b' r Hturn _ IH | call rest b e Hturn]; simpl.
  - reflexivity.
  - now rewrite (turn_exec_call _ _ _ Hturn).
  - now rewrite (turn_exec_call _ _ _ Hturn).
Qed.

Lemma replay_app (pre post : list JsVal) (b : Build) :
  replay JSON_parse (pre ++ post)%list b
  = (b' <- replay JSON_parse pre b ;; replay JSON_parse post b').
Proof.
  revert b; induction pre as [|call pre IH]; intros b; simpl; [reflexivity|].
  destruct (exec_call JSON_parse b call); simpl; [apply IH | reflexivity].
Qed.

Lemma exec_call_skipped (b : Build) (call : JsVal) :
  skipped call ->
  exists w, exec_call JSON_parse b call = OK (warn w b).
Proof.
  unfold exec_call, String_or_throw. intros [H | (key & Hk & Hm)].
  - rewrite H; simpl. eauto.
  - destruct (truthy (call_name call)); simpl; [|eauto].
    rewrite Hk; simpl. rewrite Hm. eauto.
Qed.

Lemma replay_skipped (calls : list JsVal) (b : Build) :
  Forall skipped calls ->
  exists b', replay JSON_parse calls b = OK b' /\ ctx b' = ctx b.
Proof.
  intros H; revert b; induction H as [|call rest Hc _ IH]; intros b; simpl.
  - eauto.
  - destruct (exec_call_skipped b call Hc) as [w ->]; simpl.
    destruct (IH (warn w b)) as (b' & -> & Hctx). eauto.
Qed.

End ReplayFacts.

(** ** Replay: what one bad call does, and what the loop is a function of *)

(** C2, the claim as worded fails: the replay loop has no handler around a
    call.  A [create_page] whose path lacks the slash, or whose arguments
    are not JSON, throws out of the loop: the valid call that follows is
    never applied and [compileApp] rejects. *)
Lemma malformed_arguments_abort_the_build :
  replay JSON_parse_sample bad_path_then_good fresh_build
  = Throw create_page_path_error
  /\ replay JSON_parse_sample bad_json_then_good fresh_build
     = Throw (Error "Failed to parse tool arguments as JSON: {oops")
  /\ compileApp JSON_parse_sample (fresh_env bad_path_then_good)
     = Throw create_page_path_error.
Proof. repeat split. Qed.

(** C2, amended: during the replay, a call to a function of [tools] whose
    arguments cannot be parsed, or on which the function throws, is not
    caught: the calls before it have been applied, the exception leaves the
    loop at that call, and the calls after it are never applied. *)
Theorem malformed_call_stops_replay
        (JSON_parse : string -> option JsVal)
        (pre post : list JsVal) (call : JsVal) (b b' : Build)
        (key : string) (fn : ToolsMember) (e : Exn) :
  replay JSON_parse pre b = OK b' ->
  truthy (call_name call) = true ->
  String_ (call_name call) = Some key ->
  tools_member key = Some fn ->
  (parseToolArgs JSON_parse (call_argsRaw call) = Throw e
   \/ exists args, parseToolArgs JSON_parse (call_argsRaw call) = OK args
                   /\ call_member fn (ctx b') args = Throw e) ->
  replay JSON_parse (pre ++ call :: post)%list b = Throw e.
Proof.
  intros Hpre Hname Hkey Hfn Hbad.
  rewrite replay_app, Hpre. simpl.
  assert (Hturn : turn JSON_parse b' call (Throw e)).
  { destruct Hbad as [Hargs | (args & Hargs & Hcall)].
    - now apply turn_bad_args with key fn.
    - now apply turn_tool_throws with key fn args. }
  now rewrite (turn_exec_call _ _ _ _ Hturn).
Qed.

Lemma malformed_call_stops_replay_witness :
  replay JSON_parse_sample
    ([create_page_call "/" "A"] ++ create_page_call "about" "B"
       :: [create_page_call "/contact" "C"])%list fresh_build
  = Throw create_page_path_error.
Proof.
  eapply (malformed_call_stops_replay JSON_parse_sample
            [create_page_call "/" "A"] [create_page_call "/contact" "C"]
            (create_page_call "about" "B") fresh_build _
            "create_page" Tool_create_page create_page_path_error).
  - reflexivity.
  - reflexivity.
  - reflexivity.
  - reflexivity.
  - right. eexists. split; reflexivity.
Defined.

(** X16: a name under which [tools] has no function is skipped with a
    warning, and the pages of the calls around it are both there. *)
Lemma unknown_tool_is_skipped
      (JSON_parse : string -> option JsVal)
      (key p1 c1 p2 c2 : string) (args : JsVal) :
  tools_member key = None ->
  startsWith p1 "/" = true -> startsWith p2 "/" = true ->
  exists b,
    replay JSON_parse
      [create_page_call p1 c1; tool_call key args; create_page_call p2 c2]
      fresh_build = OK b
    /\ lookup p2 (pages (ctx b)) = Some {| content := c2; dynamic := [] |}
    /\ lookup p1 (pages (ctx b))
       = Some {| content := if String.eqb p1 p2 then c2 else c1; dynamic := [] |}
    /\ List.length (warnings b) = 1.
Proof.
  intros Hkey H1 H2.
  assert (Hcreate : forall b p c,
             startsWith p "/" = true ->
             exec_call JSON_parse b (create_page_call p c)
             = OK {| ctx := with_pages (ctx b)
                              (modify p (set_content c) (ensure_page p (pages (ctx b))));
                     warnings := warnings b |}).
  { intros b p c Hp. unfold exec_call. simpl.
    unfold create_page. simpl. unfold valid_path. now rewrite Hp. }
  assert (Hskip : forall b, exists w,
               exec_call JSON_parse b (tool_call key args) = OK (warn w b)).
  { intros b. apply exec_call_skipped.
    unfold skipped, call_name, tool_call, or_else. simpl.
    destruct (String.eqb key "") eqn:E; simpl; [now left|].
    right. exists key. auto. }
  cbn [replay]. rewrite (Hcreate _ _ _ H1). cbn [bind].
  match goal with
  | |- context [exec_call JSON_parse ?b0 (tool_call key args)] =>
      destruct (Hskip b0) as [w ->]
  end.
  cbn [bind]. rewrite (Hcreate _ _ _ H2). cbn [bind].
  eexists; split; [reflexivity|].
  cbn [ctx pages with_pages warn fresh_build warnings].
  destruct (String.eqb_spec p1 p2) as [<-|Hne].
  - repeat rewrite lookup_upsert_same. simpl. auto.
  - rewrite lookup_upsert_same.
    rewrite (lookup_upsert_other p1 p2) by congruence.
    rewrite (lookup_upsert_other p2 p1) by congruence.
    rewrite lookup_upsert_same. simpl. auto.
Qed.

(** C3, on the code: [valueOf] is no tool, yet [tools.valueOf] is the
    function inherited from [Object.prototype]; the loop calls it, it
    throws a TypeError, and the page of the third call is never created.
    (With a name that is no property of [tools] at all the call is skipped
    and both pages are there: [unknown_tool_is_skipped].) *)
Theorem inherited_name_aborts_replay :
  assoc "valueOf" own_tools = None
  /\ replay JSON_parse_sample (calls_around "valueOf") fresh_build
     = Throw TypeError
  /\ compileApp JSON_parse_sample (fresh_env (calls_around "valueOf"))
     = Throw TypeError
  /\ exists b,
      replay JSON_parse_sample (calls_around "render_page") fresh_build = OK b
      /\ map fst (pages (ctx b)) = ["/"; "/about"]
      /\ warnings b = [UnknownToolSkipped "render_page"].
Proof.
  repeat split. eexists. repeat split.
Qed.

(** C8, the claim as worded fails: a build whose only call is invalid by
    its arguments serves no route table at all, [compileApp] rejects. *)
Lemma invalid_arguments_give_no_route_table :
  compileApp JSON_parse_sample (fresh_env [create_page_call "about" "A"])
  = Throw create_page_path_error.
Proof. reflexivity. Qed.

(** C8, amended: a build whose list of tool calls is empty, or holds only
    calls that the loop skips (no name, or no function of [tools] under
    the name), wires exactly one route, at the root path, on the diagnostic
    page.  So does every replay that ends normally without a page, and a
    replay that ends normally never gives an empty route table. *)
Theorem skipped_calls_give_fallback_route
        (JSON_parse : string -> option JsVal) :
  (forall (env : Env) (o : PlanOrigin) (calls : list JsVal),
      obtain_tool_calls env = OK (o, calls) ->
      Forall skipped calls ->
      compileApp JSON_parse env
      = OK (o, {| routes := [("/", fallback_page)];
                  served_layout := {| header_html := ""; footer_html := "" |} |}))
  /\ (forall b : Build,
         pages (ctx b) = [] -> routes (wire_routes b) = [("/", fallback_page)])
  /\ (forall b : Build, routes (wire_routes b) <> [])
  /\ occurs "LLM compilation produced no pages" (content fallback_page).
Proof.
  split; [|split; [|split]].
  - intros env o calls Hplan Hskip. unfold compileApp.
    rewrite Hplan. simpl.
    destruct (replay_skipped JSON_parse calls fresh_build Hskip) as (b & -> & Hctx).
    simpl. unfold wire_routes. now rewrite Hctx.
  - intros b H. unfold wire_routes. simpl. now rewrite H.
  - intros b. unfold wire_routes, with_fallback. simpl.
    destruct (pages (ctx b)); discriminate.
  - exists ("<!doctype html><html><head><meta charset=" ++ quoted "utf-8"
            ++ "><title>LLM Compiler</title></head><body><h1>"),
           ("</h1><p>Please check your API key and model, or adjust app.txt.</p>"
            ++ "</body></html>").
    reflexivity.
Qed.

Lemma skipped_calls_give_fallback_route_witness :
  compileApp JSON_parse_sample
    (fresh_env [tool_call "render_page" (JObj []); JObj [("arguments", JObj [])]])
  = OK (FromModel,
        {| routes := [("/", fallback_page)];
           served_layout := {| header_html := ""; footer_html := "" |} |})
  /\ routes (wire_routes fresh_build) = [("/", fallback_page)].
Proof.
  destruct (skipped_calls_give_fallback_route JSON_parse_sample)
    as (Hbuild & Hempty & _).
  split.
  - eapply Hbuild.
    + reflexivity.
    + constructor; [|constructor; [|constructor]].
      * right. exists "render_page". split; reflexivity.
      * left. reflexivity.
  - apply Hempty. reflexivity.
Defined.


(** ** add_asset: the URL of the asset and the placement of the fragment *)

(** C4: [add_asset] cleans the reference (leading separators removed,
    backslashes turned into slashes) and resolves it in three tiers: under
    [assets/] it is taken as it is, under [images/] it is mounted under
    [/assets/], and anything else is a file of [/assets/images/].  The
    references [test.png], [images/test.png] and [assets/images/test.png]
    all give the URL [/assets/images/test.png], which is the [src] of the
    fragment appended to the page. *)
Theorem add_asset_resolves_in_three_tiers :
  (forall asset,
      startsWith (normalize_asset asset) "assets/" = true ->
      asset_src asset = "/" ++ normalize_asset asset)
  /\ (forall asset,
         startsWith (normalize_asset asset) "assets/" = false ->
         startsWith (normalize_asset asset) "images/" = true ->
         asset_src asset = "/assets/" ++ normalize_asset asset)
  /\ (forall asset,
         startsWith (normalize_asset asset) "assets/" = false ->
         startsWith (normalize_asset asset) "images/" = false ->
         asset_src asset = "/assets/images/" ++ normalize_asset asset)
  /\ asset_src "test.png" = "/assets/images/test.png"
  /\ asset_src "images/test.png" = "/assets/images/test.png"
  /\ asset_src "assets/images/test.png" = "/assets/images/test.png"
  /\ (forall (c : Ctx) (asset : string),
         In asset ["test.png"; "images/test.png"; "assets/images/test.png"] ->
         add_asset c (JObj [("path", JStr "/"); ("asset", JStr asset)])
         = OK (with_pages c
                 (modify "/"
                    (fun pg =>
                       set_content
                         (content pg
                          ++ "<img src=" ++ quoted "/assets/images/test.png"
                          ++ " alt=" ++ quoted "" ++ " />") pg)
                    (ensure_page "/" (pages c))))).
Proof.
  repeat split.
  - intros asset H. unfold asset_src. now rewrite H.
  - intros asset H1 H2. unfold asset_src. now rewrite H1, H2.
  - intros asset H1 H2. unfold asset_src. now rewrite H1, H2.
  - intros c asset [<- | [<- | [<- | []]]]; reflexivity.
Qed.

Lemma add_asset_resolves_in_three_tiers_witness :
  asset_src "assets/logo.svg" = "/assets/logo.svg"
  /\ asset_src "images/logo.svg" = "/assets/images/logo.svg"
  /\ asset_src "logo.svg" = "/assets/images/logo.svg"
  /\ add_asset {| pages := []; layout := no_layout |}
       (JObj [("path", JStr "/"); ("asset", JStr "images/test.png")])
     = OK {| pages :=
               [("/", {| content := "<img src=" ++ quoted "/assets/images/test.png"
                                    ++ " alt=" ++ quoted "" ++ " />";
                         dynamic := [] |})];
             layout := no_layout |}.
Proof.
  destruct add_asset_resolves_in_three_tiers
    as (T1 & T2 & T3 & _ & _ & _ & Tadd).
  split; [|split; [|split]].
  - apply (T1 "assets/logo.svg"). reflexivity.
  - apply (T2 "images/logo.svg"); reflexivity.
  - apply (T3 "logo.svg"); reflexivity.
  - apply (Tadd {| pages := []; layout := no_layout |} "images/test.png").
    simpl. right. left. reflexivity.
Defined.

Section ReplaceFacts.

Lemma GetSubstitution_plain (matched before after templ : string) :
  has_char dollar templ = false ->
  GetSubstitution matched before after templ = templ.
Proof.
  induction templ as [|c rest IH]; simpl; [reflexivity|].
  intros H; apply orb_false_iff in H as [Hc Hrest].
  rewrite Hc. now rewrite IH.
Qed.

(** The placeholder absent, [replace] gives the content back. *)
Lemma replace_absent (s pat repl : string) :
  ~ occurs pat s -> replace s pat repl = s.
Proof.
  intros H. unfold replace.
  destruct (indexOf pat s) as [j|] eqn:E; [|reflexivity].
  exfalso. apply H. exists (take j s), (drop (j + String.length pat) s).
  now apply indexOf_Some.
Qed.

(** A fragment without a dollar takes the place of the first
    occurrence. *)
Lemma replace_first_plain (s pat repl : string) (j : nat) :
  indexOf pat s = Some j ->
  has_char dollar repl = false ->
  replace s pat repl = take j s ++ repl ++ drop (j + String.length pat) s.
Proof.
  intros E H. unfold replace. rewrite E.
  now rewrite GetSubstitution_plain.
Qed.

Lemma place_asset_replace_placeholder (ph current html : string) :
  ph <> "" ->
  place_asset (JStr "replace_placeholder") (JStr ph) current html
  = replace current ph html.
Proof.
  intros H. unfold place_asset, nonempty_string.
  apply String.eqb_neq in H. now rewrite H.
Qed.

End ReplaceFacts.

(** C7, on the code: the fragment generated for [hero_args] is
    [hero_html], with the alternative text [$&]; [String.prototype.replace]
    reads [$&] in it as the matched text, so what takes the place of the
    placeholder is not the generated fragment: its alternative text has
    become the placeholder itself.  (A fragment without a dollar does
    replace the first occurrence, and an absent placeholder leaves the
    content as it is: [replace_first_plain], [replace_absent].) *)
Theorem replace_placeholder_rewrites_dollar_patterns :
  asset_html (asset_src "test.png") (JStr "$&") JUndef JUndef JUndef
  = OK hero_html
  /\ add_asset hero_ctx hero_args
     = OK {| pages :=
               [("/", {| content :=
                           "<h1>Hi</h1><img src=" ++ quoted "/assets/images/test.png"
                           ++ " alt=" ++ quoted "{{HERO}}" ++ " /><p>Bye</p>";
                         dynamic := [] |})];
             layout := layout hero_ctx |}
  /\ add_asset hero_ctx hero_args
     <> OK {| pages :=
                [("/", {| content := "<h1>Hi</h1>" ++ hero_html ++ "<p>Bye</p>";
                          dynamic := [] |})];
              layout := layout hero_ctx |}.
Proof.
  split; [reflexivity|]. split; [reflexivity|]. discriminate.
Qed.

(** ** The plan cache *)

Section CacheFacts.

Lemma plan_json_toolCalls (plan : CompiledPlan) :
  get_prop (plan_json plan) "toolCalls" = JArr (toolCalls plan).
Proof. reflexivity. Qed.

Lemma plan_json_assetsSignature (plan : CompiledPlan) :
  get_prop (plan_json plan) "assetsSignature" = JStr (assetsSignature plan).
Proof. reflexivity. Qed.

(** Without a cached plan the build needs the key and asks the model. *)
Lemma obtain_without_cache (env : Env) (source_m : Z) :
  source_mtimeMs env = Some source_m ->
  cached_tool_calls env = None ->
  obtain_tool_calls env
  = match apiKey env with
    | None => Throw missing_key_error
    | Some _ => calls <- model_tool_calls env ;; OK (FromModel, calls)
    end.
Proof.
  unfold obtain_tool_calls, read_source. intros -> ->. reflexivity.
Qed.

(** With a cached plan that passes the check the build takes its calls. *)
Lemma obtain_with_cache (env : Env) (calls : list JsVal) :
  cached_tool_calls env = Some calls ->
  obtain_tool_calls env = OK (FromCache, calls).
Proof.
  unfold obtain_tool_calls, read_source, cached_tool_calls.
  destruct (source_mtimeMs env); [|discriminate].
  simpl. now intros ->.
Qed.

(** A source that cannot be read ends the build at once. *)
Lemma obtain_without_source (env : Env) :
  source_mtimeMs env = None -> obtain_tool_calls env = Throw SystemError.
Proof. unfold obtain_tool_calls, read_source. now intros ->. Qed.

Lemma cached_plan_checked (env : Env) (plan : CompiledPlan) (source_m cache_m : Z) :
  source_mtimeMs env = Some source_m ->
  cache_file env
  = Some {| cache_mtimeMs := cache_m; cache_parsed := Some (plan_json plan) |} ->
  cached_tool_calls env
  = if ((cache_m >=? source_m)%Z
        && String.eqb (assetsSignature plan) (assets_signature (assetsList env)))%bool
    then Some (toolCalls plan)
    else None.
Proof.
  intros Hs Hc. unfold cached_tool_calls. rewrite Hs, Hc.
  cbn [cache_mtimeMs cache_parsed].
  rewrite plan_json_toolCalls, plan_json_assetsSignature.
  destruct (cache_m >=? source_m)%Z; reflexivity.
Qed.

End CacheFacts.

(** C1, the claim as worded fails: the source fingerprint stored in the
    plan is never read.  The plan compiled from the source as of 100 is
    reused for the source modified at 150, because the cache file carries
    a later modification time. *)
Lemma stored_fingerprint_is_not_consulted :
  source_mtimeMs touched_cache_env = Some 150%Z
  /\ obtain_tool_calls touched_cache_env = OK (FromCache, toolCalls old_plan)
  /\ ~ spec_plan_valid old_plan 150
       (assets_signature (assetsList touched_cache_env)).
Proof.
  split; [reflexivity|]. split; [reflexivity|].
  intros [H _]. apply H. reflexivity.
Qed.

(** C1, amended: when both files can be examined and the cache file holds
    a compiled plan, the plan is reused, and the model not asked, if and
    only if the modification time of the cache file is at least that of
    the source file and the signature stored in the plan is the signature
    computed from the current asset inventory.  When either fails the plan
    is rejected and the build goes on to a fresh compilation. *)
Theorem cached_plan_reused_iff
        (env : Env) (plan : CompiledPlan) (source_m cache_m : Z) :
  source_mtimeMs env = Some source_m ->
  cache_file env
  = Some {| cache_mtimeMs := cache_m; cache_parsed := Some (plan_json plan) |} ->
  ((exists calls, obtain_tool_calls env = OK (FromCache, calls))
   <-> (cache_m >= source_m)%Z
       /\ assetsSignature plan = assets_signature (assetsList env))
  /\ ((cache_m >= source_m)%Z
      /\ assetsSignature plan = assets_signature (assetsList env) ->
      obtain_tool_calls env = OK (FromCache, toolCalls plan))
  /\ (~ ((cache_m >= source_m)%Z
         /\ assetsSignature plan = assets_signature (assetsList env)) ->
      obtain_tool_calls env
      = match apiKey env with
        | None => Throw missing_key_error
        | Some _ => calls <- model_tool_calls env ;; OK (FromModel, calls)
        end).
Proof.
  intros Hs Hc.
  pose proof (cached_plan_checked env plan source_m cache_m Hs Hc) as Hcheck.
  assert (Hvalid :
            ((cache_m >=? source_m)%Z
             && String.eqb (assetsSignature plan)
                           (assets_signature (assetsList env)))%bool = true
            <-> (cache_m >= source_m)%Z
                /\ assetsSignature plan = assets_signature (assetsList env)).
  { rewrite andb_true_iff, Z.geb_le, String.eqb_eq. intuition lia. }
  destruct ((cache_m >=? source_m)%Z
            && String.eqb (assetsSignature plan)
                          (assets_signature (assetsList env)))%bool.
  - assert (Hreuse : obtain_tool_calls env = OK (FromCache, toolCalls plan))
      by (now apply obtain_with_cache).
    split; [|split].
    + split; [intros _; now apply Hvalid | intros _; eauto].
    + intros _. exact Hreuse.
    + intros Hno. exfalso. apply Hno. now apply Hvalid.
  - pose proof (obtain_without_cache env source_m Hs Hcheck) as Hfresh.
    split; [|split].
    + split; [|intros H; apply Hvalid in H; discriminate].
      intros [calls H]. rewrite Hfresh in H.
      destruct (apiKey env); [|discriminate].
      destruct (model_tool_calls env); discriminate.
    + intros H. apply Hvalid in H. discriminate.
    + intros _. exact Hfresh.
Qed.

Lemma cached_plan_reused_iff_witness :
  obtain_tool_calls touched_cache_env = OK (FromCache, toolCalls old_plan)
  /\ obtain_tool_calls stale_cache_env
     = OK (FromModel, [create_page_call "/" "A2"]).
Proof.
  split.
  - apply (cached_plan_reused_iff touched_cache_env old_plan 150 200
             eq_refl eq_refl).
    split; [|reflexivity].
    intros H. discriminate H.
  - apply (cached_plan_reused_iff stale_cache_env old_plan 150 120
             eq_refl eq_refl).
    intros [H _]. apply H. reflexivity.
Defined.

(** ** More on split and join *)

Section SplitMoreFacts.

Lemma occurs_indexOf (p s : string) : occurs p s -> indexOf p s <> None.
Proof. intros H E. now apply (indexOf_None p s). Qed.

Lemma indexOf_occurs (p s : string) (j : nat) : indexOf p s = Some j -> occurs p s.
Proof.
  intros E. exists (take j s), (drop (j + String.length p) s).
  now apply indexOf_Some.
Qed.

(** Nothing to cut: the string comes back in one piece. *)
Lemma split_absent (s sep : string) :
  sep <> "" -> ~ occurs sep s -> split s sep = [s].
Proof.
  intros Hsep Hfree. rewrite (split_nonempty_separator _ _ Hsep).
  destruct (indexOf sep s) as [j|] eqn:E.
  - exfalso. apply Hfree. now apply indexOf_occurs with j.
  - destruct (String.length s); simpl; now rewrite E.
Qed.

Lemma has_char_occurs (c : ascii) (s : string) :
  has_char c s = true <-> occurs (String c "") s.
Proof.
  induction s as [|x s IH]; simpl.
  - split; [discriminate | intros H; apply occurs_nil in H; discriminate].
  - rewrite orb_true_iff, IH, Ascii.eqb_eq. split.
    + intros [->|(a & b & ->)].
      * now exists "", s.
      * now exists (String x a), b.
    + intros (a & b & H). destruct a as [|y a]; simpl in H.
      * injection H as -> _. now left.
      * injection H as _ ->. right. now exists a, b.
Qed.

Lemma subst_char_absent (c d : ascii) (s : string) :
  has_char c s = false -> subst_char c d s = s.
Proof.
  induction s as [|x s IH]; simpl; [reflexivity|].
  intros H; apply orb_false_iff in H as [-> H]. now rewrite IH.
Qed.

Lemma subst_char_append (c d : ascii) (a b : string) :
  subst_char c d (a ++ b) = subst_char c d a ++ subst_char c d b.
Proof. induction a as [|x a IH]; simpl; [reflexivity | now rewrite IH]. Qed.

Lemma subst_char_same (c : ascii) (s : string) : subst_char c c s = s.
Proof.
  induction s as [|x s IH]; simpl; [reflexivity|]. rewrite IH.
  destruct (Ascii.eqb_spec x c); congruence.
Qed.

Lemma not_occurs_has_char (c : ascii) (s : string) :
  ~ occurs (String c "") s -> has_char c s = false.
Proof.
  intros H. destruct (has_char c s) eqn:E; [|reflexivity].
  exfalso. now apply H, has_char_occurs.
Qed.

Lemma split_loop_char (fuel : nat) (c d : ascii) (s : string) :
  String.length s <= fuel ->
  join (String d "") (split_loop fuel (String c "") s) = subst_char c d s.
Proof.
  revert s; induction fuel as [|f IH]; intros s Hlen; simpl;
    destruct (indexOf (String c "") s) as [j|] eqn:E.
  - destruct s; [|simpl in Hlen; lia]. discriminate.
  - simpl. symmetry. apply subst_char_absent, not_occurs_has_char.
    now apply indexOf_None.
  - rewrite join_cons by apply split_loop_nonempty.
    pose proof (indexOf_Some _ _ _ E) as Hs.
    pose proof (indexOf_Some_length _ _ _ E) as Hl. simpl in Hl.
    simpl in Hs. rewrite IH by lia.
    assert (Hfree : subst_char c d (take j s) = take j s).
    { apply subst_char_absent, not_occurs_has_char.
      apply indexOf_Some_first; [discriminate | exact E]. }
    transitivity (subst_char c d (take j s ++ String c (drop (j + 1) s)));
      [|now rewrite <- Hs].
    rewrite subst_char_append, Hfree. simpl. now rewrite Ascii.eqb_refl.
  - simpl. symmetry. apply subst_char_absent, not_occurs_has_char.
    now apply indexOf_None.
Qed.

Lemma join_split_chars (s : string) : join "" (split s "") = s.
Proof.
  unfold split. induction s as [|x s IH]; [reflexivity|].
  cbn [list_ascii_of_string map].
  destruct s as [|y s]; [reflexivity|].
  rewrite join_cons by discriminate. now rewrite IH.
Qed.

Lemma to_posix_subst (sep : ascii) (rel : string) :
  to_posix sep rel = subst_char sep slash rel.
Proof.
  unfold to_posix, split.
  change "/" with (String slash ""). now apply split_loop_char.
Qed.

End SplitMoreFacts.

(** Cutting a string at a separator and joining the pieces with the
    same separator gives the string back, whatever the separator, the
    empty one included. *)
Lemma join_split_round_trip (s sep : string) :
  join sep (split s sep) = s.
Proof.
  destruct sep as [|c sep]; [apply join_split_chars|].
  apply split_pieces. discriminate.
Qed.

(** X1: [rel.split(path.sep).join('/')] turns every separator of the
    platform into a slash and changes nothing else; where the separator
    is the slash it gives the path back. *)
Theorem to_posix_replaces_separators :
  (forall (sep : ascii) (rel : string),
      to_posix sep rel = subst_char sep slash rel)
  /\ (forall rel : string, to_posix slash rel = rel).
Proof.
  split; [exact to_posix_subst|].
  intros rel. rewrite to_posix_subst. apply subst_char_same.
Qed.

(** ** The tools, one by one *)

Section ToolFacts.

Lemma type_match (A : Type) (s : string) (a b : A) :
  match s with "CURRENT_TIME" => a | _ => b end
  = if String.eqb s "CURRENT_TIME" then a else b.
Proof.
  do 12 (destruct s as [|[[] [] [] [] [] [] [] []] s]; try reflexivity).
  destruct s; reflexivity.
Qed.

(** The three branches of [place_asset], by tests on the placement. *)
Lemma place_asset_cases (placement placeholder : JsVal) (current html : string) :
  place_asset placement placeholder current html
  = match placement, nonempty_string placeholder with
    | JStr s, Some ph =>
        if String.eqb s "replace_placeholder" then replace current ph html
        else if String.eqb s "prepend" then html ++ current
        else current ++ html
    | JStr s, None =>
        if String.eqb s "prepend" then html ++ current else current ++ html
    | _, _ => current ++ html
    end.
Proof.
  unfold place_asset.
  destruct placement as [| |b|r|s|l|f]; try reflexivity;
    try (destruct (nonempty_string placeholder); reflexivity).
  destruct (nonempty_string placeholder) as [ph|].
  - do 19 (destruct s as [|[[] [] [] [] [] [] [] []] s]; try reflexivity).
    destruct s; reflexivity.
  - do 19 (destruct s as [|[[] [] [] [] [] [] [] []] s]; try reflexivity).
    destruct s; reflexivity.
Qed.

Lemma valid_path_Some (v : JsVal) (p : string) :
  valid_path v = Some p -> v = JStr p /\ startsWith p "/" = true.
Proof.
  destruct v; simpl; try discriminate.
  destruct (startsWith s "/") eqn:E; [|discriminate].
  now intros [= <-].
Qed.

Lemma nonempty_string_Some (v : JsVal) (s : string) :
  nonempty_string v = Some s -> v = JStr s /\ s <> "".
Proof.
  destruct v as [| | | |x| |]; simpl; try discriminate.
  destruct (String.eqb_spec x ""); [discriminate|].
  now intros [= <-].
Qed.

Lemma lookup_None_keys (p : string) (ps : Pages) :
  lookup p ps = None -> ~ In p (map fst ps).
Proof.
  unfold lookup; induction ps as [|[k x] ps IH]; simpl; [tauto|].
  destruct (String.eqb_spec k p); [discriminate|].
  intros H [Hk|Hin]; [contradiction | now apply IH].
Qed.

Lemma keys_ensure_page (p : string) (ps : Pages) :
  map fst (ensure_page p ps)
  = (map fst ps ++ match lookup p ps with Some _ => [] | None => [p] end)%list.
Proof.
  unfold ensure_page. destruct (lookup p ps).
  - now rewrite app_nil_r.
  - now rewrite map_app.
Qed.

Lemma modify_ext (p : string) (f g : Page -> Page) (ps : Pages) :
  (forall pg, f pg = g pg) -> modify p f ps = modify p g ps.
Proof.
  intros H; induction ps as [|[k x] ps IH]; simpl; [reflexivity|].
  destruct (String.eqb k p); [now rewrite H | now rewrite IH].
Qed.

Lemma modify_modify (p : string) (f g : Page -> Page) (ps : Pages) :
  modify p g (modify p f ps) = modify p (fun pg => g (f pg)) ps.
Proof.
  induction ps as [|[k x] ps IH]; simpl; [reflexivity|].
  destruct (String.eqb k p) eqn:E; simpl; rewrite E; [reflexivity|].
  now rewrite IH.
Qed.

Lemma ensure_page_upsert (p : string) (f : Page -> Page) (ps : Pages) :
  ensure_page p (modify p f (ensure_page p ps)) = modify p f (ensure_page p ps).
Proof.
  unfold ensure_page at 1. now rewrite lookup_upsert_same.
Qed.

Lemma Forall_modify (Q : string * Page -> Prop) (p : string)
      (f : Page -> Page) (ps : Pages) :
  (forall k pg, Q (k, pg) -> Q (k, f pg)) ->
  Forall Q ps -> Forall Q (modify p f ps).
Proof.
  intros Hf; induction 1 as [|kx ps Hx Hps IH]; simpl; [constructor|].
  destruct kx as [k x]. destruct (String.eqb k p); constructor; auto.
Qed.

Lemma Forall_ensure_page (Q : string * Page -> Prop) (p : string) (ps : Pages) :
  Q (p, empty_page) -> Forall Q ps -> Forall Q (ensure_page p ps).
Proof.
  intros Hp H. unfold ensure_page. destruct (lookup p ps); [exact H|].
  apply Forall_app. split; [exact H | now constructor].
Qed.

(** What a tool has done when it returns. *)
Lemma create_page_OK (c c' : Ctx) (args : JsVal) :
  create_page c args = OK c' ->
  exists p new,
    get_prop (args_or_empty args) "path" = JStr p
    /\ startsWith p "/" = true
    /\ get_prop (args_or_empty args) "content" = JStr new
    /\ c' = with_pages c (modify p (set_content new) (ensure_page p (pages c))).
Proof.
  unfold create_page.
  destruct (valid_path (get_prop (args_or_empty args) "path")) as [p|] eqn:Hp;
    [|discriminate].
  apply valid_path_Some in Hp as [Hp Hs].
  destruct (get_prop (args_or_empty args) "content") eqn:Hc; try discriminate.
  intros [= <-]. eauto 8.
Qed.

Lemma add_dynamic_content_OK (c c' : Ctx) (args : JsVal) :
  add_dynamic_content c args = OK c' ->
  exists p ph,
    get_prop (args_or_empty args) "path" = JStr p
    /\ startsWith p "/" = true
    /\ get_prop (args_or_empty args) "placeholder" = JStr ph
    /\ ph <> ""
    /\ get_prop (args_or_empty args) "type" = JStr "CURRENT_TIME"
    /\ c' = with_pages c
              (modify p
                 (push_dynamic {| placeholder := ph; type := "CURRENT_TIME" |})
                 (ensure_page p (pages c))).
Proof.
  unfold add_dynamic_content.
  destruct (valid_path (get_prop (args_or_empty args) "path")) as [p|] eqn:Hp;
    [|discriminate].
  apply valid_path_Some in Hp as [Hp Hs].
  destruct (nonempty_string (get_prop (args_or_empty args) "placeholder"))
    as [ph|] eqn:Hph; [|discriminate].
  apply nonempty_string_Some in Hph as [Hph Hne].
  destruct (get_prop (args_or_empty args) "type") as [| | | |s| |] eqn:Ht;
    try discriminate.
  rewrite type_match.
  destruct (String.eqb_spec s "CURRENT_TIME") as [->|]; [|discriminate].
  intros [= <-]. exists p, ph. auto 8.
Qed.

Lemma add_asset_OK (c c' : Ctx) (args : JsVal) :
  add_asset c args = OK c' ->
  exists p a html,
    get_prop (args_or_empty args) "path" = JStr p
    /\ startsWith p "/" = true
    /\ get_prop (args_or_empty args) "asset" = JStr a
    /\ a <> ""
    /\ asset_html (asset_src a)
         (get_prop (args_or_empty args) "alt")
         (get_prop (args_or_empty args) "className")
         (get_prop (args_or_empty args) "width")
         (get_prop (args_or_empty args) "height") = OK html
    /\ c' = with_pages c
              (modify p
                 (fun pg =>
                    set_content
                      (place_asset
                         match get_prop (args_or_empty args) "placement" with
                         | JUndef => JStr "append"
                         | v => v
                         end
                         (get_prop (args_or_empty args) "placeholder")
                         (content pg) html) pg)
                 (ensure_page p (pages c))).
Proof.
  unfold add_asset.
  destruct (valid_path (get_prop (args_or_empty args) "path")) as [p|] eqn:Hp;
    [|discriminate].
  apply valid_path_Some in Hp as [Hp Hs].
  destruct (nonempty_string (get_prop (args_or_empty args) "asset"))
    as [a|] eqn:Ha; [|discriminate].
  apply nonempty_string_Some in Ha as [Ha Hne].
  destruct (asset_html (asset_src a) _ _ _ _) as [html|] eqn:Hh;
    [|discriminate].
  simpl. intros [= <-]. exists p, a, html. auto 8.
Qed.

Lemma set_layout_OK (c c' : Ctx) (args : JsVal) :
  set_layout c args = OK c' ->
  exists header footer,
    c' = {| pages := pages c;
            layout := {| header_html := header; footer_html := footer |} |}.
Proof.
  unfold set_layout.
  destruct (if nullish _ then _ else _) as [header|]; [|discriminate].
  simpl. destruct (if nullish _ then _ else _) as [footer|]; [|discriminate].
  simpl. intros [= <-]. eauto.
Qed.

(** A call that returns has changed the layout only, or the page under
    one valid path only, whose rules it has kept or extended by one. *)
Lemma tool_effect (fn : ToolsMember) (c c' : Ctx) (args : JsVal) :
  call_member fn c args = OK c' ->
  pages c' = pages c
  \/ exists p f,
      startsWith p "/" = true
      /\ pages c' = modify p f (ensure_page p (pages c))
      /\ layout c' = layout c
      /\ forall pg,
          dynamic (f pg) = dynamic pg
          \/ exists d, well_formed_rule d
                       /\ dynamic (f pg) = (dynamic pg ++ [d])%list.
Proof.
  destruct fn; simpl; intros H.
  - apply create_page_OK in H as (p & new & _ & Hs & _ & ->).
    right. exists p, (set_content new). repeat split; auto.
  - apply add_asset_OK in H as (p & a & html & _ & Hs & _ & _ & _ & ->).
    right. eexists p, _. repeat split; auto.
  - apply add_dynamic_content_OK in H as (p & ph & _ & Hs & _ & Hne & _ & ->).
    right. eexists p, _. repeat split; auto.
    intros pg. right. eexists. split; [|reflexivity]. now split.
  - apply set_layout_OK in H as (h & f & ->). now left.
  - injection H as <-. now left.
  - discriminate.
Qed.

Lemma upsert_well_formed (p : string) (f : Page -> Page) (ps : Pages) :
  startsWith p "/" = true ->
  (forall pg, dynamic (f pg) = dynamic pg
              \/ exists d, well_formed_rule d
                           /\ dynamic (f pg) = (dynamic pg ++ [d])%list) ->
  well_formed_pages ps ->
  well_formed_pages (modify p f (ensure_page p ps)).
Proof.
  intros Hs Hf [Hnd Hall]. split.
  - rewrite keys_modify, keys_ensure_page.
    destruct (lookup p ps) eqn:E; [now rewrite app_nil_r|].
    apply NoDup_app.
    + exact Hnd.
    + constructor; [simpl; tauto | constructor].
    + intros x Hx [<-|[]]. now apply (lookup_None_keys _ _ E).
  - apply Forall_modify.
    + intros k pg [Hk Hr]. split; [exact Hk|]. simpl in *.
      destruct (Hf pg) as [->|(d & Hd & ->)]; [exact Hr|].
      apply Forall_app. split; [exact Hr | now constructor].
    + apply Forall_ensure_page; [|exact Hall].
      split; [exact Hs | constructor].
Qed.

Lemma tool_keeps_well_formed (fn : ToolsMember) (c c' : Ctx) (args : JsVal) :
  call_member fn c args = OK c' ->
  well_formed_pages (pages c) -> well_formed_pages (pages c').
Proof.
  intros H Hwf. apply tool_effect in H as [->|(p & f & Hs & -> & _ & Hf)];
    [exact Hwf | now apply upsert_well_formed].
Qed.

Lemma tool_keeps_keys (fn : ToolsMember) (c c' : Ctx) (args : JsVal) :
  call_member fn c args = OK c' ->
  exists added, map fst (pages c') = (map fst (pages c) ++ added)%list.
Proof.
  intros H. apply tool_effect in H as [->|(p & f & _ & -> & _ & _)].
  - exists []. now rewrite app_nil_r.
  - rewrite keys_modify, keys_ensure_page. eauto.
Qed.

End ToolFacts.

(** X2: [add_dynamic_content] with a valid path, a placeholder that is
    not empty and the type [CURRENT_TIME] returns normally; it puts one
    rule at the end of the rules of that page (created empty when the path
    is new) and changes neither the content of the page, nor another page,
    nor the layout. *)
Theorem add_dynamic_content_appends_rule
        (c : Ctx) (args : JsVal) (p ph : string) :
  get_prop args "path" = JStr p -> startsWith p "/" = true ->
  get_prop args "placeholder" = JStr ph -> ph <> "" ->
  get_prop args "type" = JStr "CURRENT_TIME" ->
  exists c',
    add_dynamic_content c args = OK c'
    /\ lookup p (pages c')
       = Some (let old := match lookup p (pages c) with
                          | Some pg => pg
                          | None => empty_page
                          end in
               {| content := content old;
                  dynamic := (dynamic old
                              ++ [{| placeholder := ph; type := "CURRENT_TIME" |}])%list |})
    /\ (forall q, q <> p -> lookup q (pages c') = lookup q (pages c))
    /\ layout c' = layout c.
Proof.
  intros Hp Hs Hph Hne Ht.
  assert (Hrun : add_dynamic_content c args
                 = OK (with_pages c
                         (modify p
                            (push_dynamic {| placeholder := ph; type := "CURRENT_TIME" |})
                            (ensure_page p (pages c))))).
  { unfold add_dynamic_content.
    rewrite (args_or_empty_object args "path") by (rewrite Hp; discriminate).
    rewrite Hp, Hph, Ht. unfold valid_path, nonempty_string. rewrite Hs.
    apply String.eqb_neq in Hne. now rewrite Hne. }
  eexists; split; [exact Hrun|]. simpl. repeat split.
  - now rewrite lookup_upsert_same.
  - intros q Hq. now apply lookup_upsert_other.
Qed.

Lemma add_dynamic_content_appends_rule_witness :
  exists c',
    add_dynamic_content
      {| pages := [("/", {| content := "Now: {{T}}"; dynamic := [] |})];
         layout := no_layout |}
      (JObj [("path", JStr "/"); ("placeholder", JStr "{{T}}");
             ("type", JStr "CURRENT_TIME")]) = OK c'
    /\ lookup "/" (pages c')
       = Some {| content := "Now: {{T}}";
                 dynamic := [{| placeholder := "{{T}}"; type := "CURRENT_TIME" |}] |}.
Proof.
  destruct (add_dynamic_content_appends_rule
              {| pages := [("/", {| content := "Now: {{T}}"; dynamic := [] |})];
                 layout := no_layout |}
              (JObj [("path", JStr "/"); ("placeholder", JStr "{{T}}");
                     ("type", JStr "CURRENT_TIME")])
              "/" "{{T}}" eq_refl eq_refl eq_refl)
    as (c' & H1 & H2 & _); [discriminate | reflexivity |].
  exists c'. split; [exact H1 | exact H2].
Defined.

(** X3: [add_dynamic_content] returns normally exactly when the path is
    a string that starts with a slash, the placeholder a string that is
    not empty, and the type the string [CURRENT_TIME]; with any other
    type it throws. *)
Theorem add_dynamic_content_accepts_iff (c : Ctx) (args : JsVal) :
  ((exists c', add_dynamic_content c args = OK c')
   <-> exists p ph,
      get_prop (args_or_empty args) "path" = JStr p
      /\ startsWith p "/" = true
      /\ get_prop (args_or_empty args) "placeholder" = JStr ph
      /\ ph <> ""
      /\ get_prop (args_or_empty args) "type" = JStr "CURRENT_TIME")
  /\ (get_prop (args_or_empty args) "type" <> JStr "CURRENT_TIME" ->
      exists e, add_dynamic_content c args = Throw e).
Proof.
  split.
  - split.
    + intros [c' H].
      apply add_dynamic_content_OK in H as (p & ph & H1 & H2 & H3 & H4 & H5 & _).
      exists p, ph. auto.
    + intros (p & ph & Hp & Hs & Hph & Hne & Ht).
      unfold add_dynamic_content. rewrite Hp, Hph, Ht.
      unfold valid_path, nonempty_string. rewrite Hs.
      apply String.eqb_neq in Hne. rewrite Hne. eauto.
  - intros Ht. destruct (add_dynamic_content c args) as [c'|e] eqn:E; [|eauto].
    apply add_dynamic_content_OK in E as (p & ph & _ & _ & _ & _ & H & _).
    contradiction.
Qed.

Lemma add_dynamic_content_accepts_iff_witness :
  exists e,
    add_dynamic_content (ctx fresh_build)
      (JObj [("path", JStr "/"); ("placeholder", JStr "{{T}}");
             ("type", JStr "RANDOM_NUMBER")]) = Throw e.
Proof.
  apply (proj2 (add_dynamic_content_accepts_iff (ctx fresh_build)
                  (JObj [("path", JStr "/"); ("placeholder", JStr "{{T}}");
                         ("type", JStr "RANDOM_NUMBER")]))).
  discriminate.
Defined.

(** X4: [set_layout] never touches the pages and overwrites both fields
    of the layout with what the call gives, whatever the layout was: a
    field given as a string is stored as it is, a field that is missing
    or null becomes empty, any other value is stored as [String] prints
    it.  So the result depends on the store through its pages only, and
    nothing of an earlier call is kept.  A call whose two fields are
    strings, null or missing always returns. *)
Theorem set_layout_last_call_wins (c : Ctx) (args : JsVal) :
  (forall c', set_layout c args = OK c' ->
      pages c' = pages c
      /\ (if nullish (get_prop (args_or_empty args) "header_html")
          then header_html (layout c') = ""
          else String_ (get_prop (args_or_empty args) "header_html")
               = Some (header_html (layout c')))
      /\ (if nullish (get_prop (args_or_empty args) "footer_html")
          then footer_html (layout c') = ""
          else String_ (get_prop (args_or_empty args) "footer_html")
               = Some (footer_html (layout c'))))
  /\ (forall c0,
         set_layout c0 args
         = match set_layout c args with
           | OK c' => OK {| pages := pages c0; layout := layout c' |}
           | Throw e => Throw e
           end)
  /\ (forall c1 args1,
         set_layout c args1 = OK c1 -> set_layout c1 args = set_layout c args)
  /\ ((nullish (get_prop (args_or_empty args) "header_html") = true
       \/ exists h, get_prop (args_or_empty args) "header_html" = JStr h) ->
      (nullish (get_prop (args_or_empty args) "footer_html") = true
       \/ exists f, get_prop (args_or_empty args) "footer_html" = JStr f) ->
      exists c', set_layout c args = OK c').
Proof.
  split; [|split; [|split]].
  - unfold set_layout, String_or_throw. intros c'.
    destruct (nullish (get_prop (args_or_empty args) "header_html")).
    + destruct (nullish (get_prop (args_or_empty args) "footer_html")).
      * simpl. intros [= <-]. auto.
      * destruct (String_ (get_prop (args_or_empty args) "footer_html"));
          simpl; [|discriminate].
        intros [= <-]. auto.
    + destruct (String_ (get_prop (args_or_empty args) "header_html"));
        simpl; [|discriminate].
      destruct (nullish (get_prop (args_or_empty args) "footer_html")).
      * simpl. intros [= <-]. auto.
      * destruct (String_ (get_prop (args_or_empty args) "footer_html"));
          simpl; [|discriminate].
        intros [= <-]. auto.
  - intros c0. unfold set_layout.
    destruct (if nullish (get_prop (args_or_empty args) "header_html")
              then _ else _) as [h|]; [|reflexivity].
    simpl.
    destruct (if nullish (get_prop (args_or_empty args) "footer_html")
              then _ else _) as [f|]; reflexivity.
  - intros c1 args1 H. apply set_layout_OK in H as (h & f & ->). reflexivity.
  - intros Hh Hf. unfold set_layout, String_or_throw.
    destruct Hh as [-> | [h Hh]], Hf as [-> | [f Hf]];
      try rewrite Hh; try rewrite Hf; simpl; eauto;
      destruct (nullish _); simpl; eauto.
Qed.

Lemma set_layout_last_call_wins_witness :
  set_layout
    {| pages := []; layout := {| header_html := "<header>"; footer_html := "<footer>" |} |}
    (JObj [("header_html", JStr "<nav>")])
  = OK {| pages := []; layout := {| header_html := "<nav>"; footer_html := "" |} |}
  /\ exists c', set_layout (ctx fresh_build) (JObj [("footer_html", JNull)]) = OK c'
                /\ header_html (layout c') = "" /\ footer_html (layout c') = "".
Proof.
  split.
  - refine (proj1 (proj2 (proj2 (set_layout_last_call_wins
                      (ctx fresh_build) (JObj [("header_html", JStr "<nav>")])))) _
                  sample_layout_args eq_refl).
  - destruct (set_layout_last_call_wins
                (ctx fresh_build) (JObj [("footer_html", JNull)]))
      as (Hfields & _ & _ & Hret).
    destruct Hret as [c' Hc']; [left; reflexivity | left; reflexivity |].
    exists c'. split; [exact Hc'|].
    destruct (Hfields c' Hc') as (_ & Hh & Hf). split; [exact Hh | exact Hf].
Defined.




(** X6: the placement of [add_asset] falls back on appending: the
    fragment goes before the content only for [prepend], it replaces
    something only for [replace_placeholder] with a placeholder that is a
    string and not empty, and in every other case (an unknown placement, a
    missing or empty placeholder) it is put after the content. *)
Theorem add_asset_placement_defaults_to_append
        (placement placeholder : JsVal) (current html : string) :
  (placement = JStr "prepend" ->
   place_asset placement placeholder current html = html ++ current)
  /\ (placement = JStr "replace_placeholder" ->
      nonempty_string placeholder = None ->
      place_asset placement placeholder current html = current ++ html)
  /\ (placement <> JStr "prepend" ->
      placement <> JStr "replace_placeholder" ->
      place_asset placement placeholder current html = current ++ html).
Proof.
  rewrite place_asset_cases. repeat split.
  - intros ->. simpl. now destruct (nonempty_string placeholder).
  - intros -> ->. reflexivity.
  - intros H1 H2. destruct placement as [| |b|r|s|l|f];
      try (destruct (nonempty_string placeholder); reflexivity).
    destruct (String.eqb_spec s "prepend") as [->|_]; [congruence|].
    destruct (String.eqb_spec s "replace_placeholder") as [->|_]; [congruence|].
    now destruct (nonempty_string placeholder).
Qed.

Lemma add_asset_placement_defaults_to_append_witness :
  place_asset (JStr "prepend") JUndef "body" "<img />" = "<img />body"
  /\ place_asset (JStr "replace_placeholder") (JStr "") "body" "<img />"
     = "body<img />"
  /\ place_asset (JStr "before") (JStr "{{X}}") "body{{X}}" "<img />"
     = "body{{X}}<img />".
Proof.
  destruct (add_asset_placement_defaults_to_append
              (JStr "prepend") JUndef "body" "<img />") as (H1 & _).
  destruct (add_asset_placement_defaults_to_append
              (JStr "replace_placeholder") (JStr "") "body" "<img />")
    as (_ & H2 & _).
  destruct (add_asset_placement_defaults_to_append
              (JStr "before") (JStr "{{X}}") "body{{X}}" "<img />")
    as (_ & _ & H3).
  split; [|split].
  - apply H1. reflexivity.
  - apply H2; reflexivity.
  - apply H3; discriminate.
Defined.

Section AssetSrcFacts.

Lemma has_char_backslashes_to_slashes (s : string) :
  has_char backslash (backslashes_to_slashes s) = false.
Proof.
  induction s as [|x s IH]; simpl; [reflexivity|]. rewrite IH.
  destruct (Ascii.eqb_spec x backslash) as [->|Hne]; [reflexivity|].
  apply orb_false_iff. split; [|reflexivity].
  now apply Ascii.eqb_neq.
Qed.

End AssetSrcFacts.

(** X7: whatever the reference, the URL that [add_asset] computes lies
    under the static mount [/assets/] and holds no backslash. *)
Theorem asset_src_under_assets (asset : string) :
  startsWith (asset_src asset) "/assets/" = true
  /\ has_char backslash (asset_src asset) = false.
Proof.
  unfold asset_src, startsWith.
  pose proof (has_char_backslashes_to_slashes (strip_leading_separators asset)) as Hb.
  fold (normalize_asset asset) in Hb.
  destruct (prefix "assets/" (normalize_asset asset)) eqn:E1.
  - split.
    + apply prefix_true in E1 as [r ->]. apply prefix_true. now exists r.
    + rewrite has_char_append, Hb. reflexivity.
  - destruct (prefix "images/" (normalize_asset asset)) eqn:E2.
    + split; [apply prefix_true; eexists; reflexivity|].
      rewrite has_char_append, Hb. reflexivity.
    + split; [apply prefix_true; eexists; reflexivity|].
      rewrite has_char_append, Hb. reflexivity.
Qed.

(** X8: a [create_page] on a path leaves no trace once a later
    [create_page] on the same path has run: the later call gives what it
    gives without the earlier one.  In particular the same call twice
    gives what it gives once. *)
Theorem create_page_last_call_wins (c c1 : Ctx) (args1 args2 : JsVal) :
  create_page c args1 = OK c1 ->
  get_prop (args_or_empty args2) "path" = get_prop (args_or_empty args1) "path" ->
  create_page c1 args2 = create_page c args2.
Proof.
  intros H Hsame.
  apply create_page_OK in H as (p & old & Hp & Hs & _ & ->).
  unfold create_page. rewrite Hsame, Hp. unfold valid_path. rewrite Hs.
  destruct (get_prop (args_or_empty args2) "content"); try reflexivity.
  unfold with_pages. simpl. f_equal. f_equal.
  rewrite ensure_page_upsert, modify_modify.
  now apply modify_ext.
Qed.

Lemma create_page_last_call_wins_witness :
  create_page
    {| pages := [("/", {| content := "first"; dynamic := [] |})]; layout := no_layout |}
    (JObj [("path", JStr "/"); ("content", JStr "second")])
  = OK {| pages := [("/", {| content := "second"; dynamic := [] |})];
          layout := no_layout |}.
Proof.
  refine (eq_trans
            (create_page_last_call_wins
               {| pages := []; layout := no_layout |} _
               (JObj [("path", JStr "/"); ("content", JStr "first")])
               (JObj [("path", JStr "/"); ("content", JStr "second")]) _ _) _);
    reflexivity.
Defined.

(** ** The replay loop and the store *)

Section ReplayStoreFacts.

Variable JSON_parse : string -> option JsVal.

Lemma skipped_is_skipped (call : JsVal) :
  is_skipped call = true <-> skipped call.
Proof.
  unfold is_skipped, skipped.
  destruct (truthy (call_name call)); [|intuition].
  destruct (String_ (call_name call)) as [key|].
  - destruct (tools_member key) eqn:E; split.
    + discriminate.
    + intros [H|(k & [= <-] & H)]; congruence.
    + intros _. right. eauto.
    + reflexivity.
  - split; [discriminate|]. intros [H|(k & H & _)]; discriminate.
Qed.

(** A skipped call only adds its warning, whatever the state. *)
Lemma exec_call_is_skipped (call : JsVal) :
  is_skipped call = true ->
  exists w, forall b, exec_call JSON_parse b call = OK (warn w b).
Proof.
  unfold is_skipped, exec_call, String_or_throw.
  destruct (truthy (call_name call)); simpl; [|eauto].
  destruct (String_ (call_name call)) as [key|]; [|discriminate].
  simpl. destruct (tools_member key); [discriminate|]. eauto.
Qed.

(** A call that is not skipped reads the store only, and keeps the
    warnings. *)
Lemma exec_call_not_skipped (call : JsVal) (b1 b2 : Build) :
  is_skipped call = false -> ctx b1 = ctx b2 ->
  (exists e, exec_call JSON_parse b1 call = Throw e
             /\ exec_call JSON_parse b2 call = Throw e)
  \/ (exists fn args c,
         call_member fn (ctx b1) args = OK c
         /\ exec_call JSON_parse b1 call = OK {| ctx := c; warnings := warnings b1 |}
         /\ exec_call JSON_parse b2 call = OK {| ctx := c; warnings := warnings b2 |}).
Proof.
  unfold is_skipped, exec_call, String_or_throw. intros H Hctx. rewrite <- Hctx.
  destruct (truthy (call_name call)); [|discriminate]. simpl.
  destruct (String_ (call_name call)) as [key|]; simpl; [|eauto].
  destruct (tools_member key) as [fn|]; [|discriminate].
  destruct (parseToolArgs JSON_parse (call_argsRaw call)) as [args|e]; simpl;
    [|eauto].
  destruct (call_member fn (ctx b1) args) as [c|e] eqn:E; simpl; [|eauto].
  right. exists fn, args, c. auto.
Qed.

(** One turn that returns has left the store alone, or has run a tool
    on it. *)
Lemma exec_call_OK (b b' : Build) (call : JsVal) :
  exec_call JSON_parse b call = OK b' ->
  ctx b' = ctx b
  \/ exists fn args, call_member fn (ctx b) args = OK (ctx b').
Proof.
  intros H. destruct (is_skipped call) eqn:E.
  - destruct (exec_call_is_skipped call E) as [w Hw].
    rewrite Hw in H. injection H as <-. now left.
  - destruct (exec_call_not_skipped call b b E eq_refl)
      as [(e & He & _) | (fn & args & c & Hc & Hb & _)]; [congruence|].
    rewrite Hb in H. injection H as <-. right. eauto.
Qed.

Lemma replay_invariant (Inv : Ctx -> Prop) :
  (forall fn c c' args, call_member fn c args = OK c' -> Inv c -> Inv c') ->
  forall calls b b',
    replay JSON_parse calls b = OK b' -> Inv (ctx b) -> Inv (ctx b').
Proof.
  intros Hstep calls; induction calls as [|call rest IH]; intros b b'; simpl.
  - now intros [= <-].
  - destruct (exec_call JSON_parse b call) as [b1|e] eqn:E; simpl; [|discriminate].
    intros Hrest Hb. apply (IH _ _ Hrest).
    apply exec_call_OK in E as [->|(fn & args & Hc)]; [exact Hb|].
    now apply (Hstep _ _ _ _ Hc).
Qed.

Lemma replay_outcome_without_skipped (calls : list JsVal) (b1 b2 : Build) :
  ctx b1 = ctx b2 ->
  outcome (replay JSON_parse (filter (fun c => negb (is_skipped c)) calls) b1)
  = outcome (replay JSON_parse calls b2).
Proof.
  revert b1 b2; induction calls as [|call rest IH]; intros b1 b2 Hctx; simpl.
  - now rewrite Hctx.
  - destruct (is_skipped call) eqn:E; simpl.
    + destruct (exec_call_is_skipped call E) as [w Hw]. rewrite Hw. simpl.
      now apply IH.
    + destruct (exec_call_not_skipped call b1 b2 E Hctx)
        as [(e & -> & ->) | (fn & args & c & _ & -> & ->)]; simpl;
        [reflexivity | now apply IH].
Qed.

Lemma replay_warnings (calls : list JsVal) (b b' : Build) :
  replay JSON_parse calls b = OK b' ->
  List.length (warnings b')
  = List.length (warnings b) + List.length (filter is_skipped calls).
Proof.
  revert b; induction calls as [|call rest IH]; intros b; simpl.
  - intros [= <-]. lia.
  - destruct (is_skipped call) eqn:E.
    + destruct (exec_call_is_skipped call E) as [w Hw]. rewrite Hw. simpl.
      intros H. rewrite (IH _ H). simpl. rewrite length_app. simpl. lia.
    + destruct (exec_call_not_skipped call b b E eq_refl)
        as [(e & -> & _) | (fn & args & c & _ & -> & _)]; simpl;
        [discriminate|].
      intros H. now rewrite (IH _ H).
Qed.

End ReplayStoreFacts.

(** X11: the replay keeps the store well formed: from a store whose paths
    start with a slash and are all different and whose rules have a
    placeholder that is not empty and the type [CURRENT_TIME], a replay
    that ends normally ends on such a store; and so does every replay
    from the fresh store. *)
Theorem replay_keeps_store_well_formed
        (JSON_parse : string -> option JsVal) (calls : list JsVal) :
  (forall b b',
      well_formed_pages (pages (ctx b)) ->
      replay JSON_parse calls b = OK b' ->
      well_formed_pages (pages (ctx b')))
  /\ (forall b',
         replay JSON_parse calls fresh_build = OK b' ->
         well_formed_pages (pages (ctx b'))).
Proof.
  assert (H : forall b b',
             well_formed_pages (pages (ctx b)) ->
             replay JSON_parse calls b = OK b' ->
             well_formed_pages (pages (ctx b'))).
  { intros b b' Hwf Hrun.
    apply (replay_invariant JSON_parse (fun c => well_formed_pages (pages c))
             tool_keeps_well_formed calls b b' Hrun Hwf). }
  split; [exact H|].
  intros b'. apply H. split; constructor.
Qed.

Lemma replay_keeps_store_well_formed_witness :
  well_formed_pages [("/", colon_page)].
Proof.
  apply (proj2 (replay_keeps_store_well_formed JSON_parse_sample colon_calls)
               {| ctx := {| pages := [("/", colon_page)]; layout := no_layout |};
                  warnings := [] |}).
  reflexivity.
Defined.

(** X12: no call of a replay deletes or moves a page: at the end of a
    replay that ends normally, the paths that were there come first, in
    the order they had, and the new ones follow. *)
Theorem replay_never_deletes_pages
        (JSON_parse : string -> option JsVal) (calls : list JsVal) (b b' : Build) :
  replay JSON_parse calls b = OK b' ->
  exists added,
    map fst (pages (ctx b')) = (map fst (pages (ctx b)) ++ added)%list.
Proof.
  intros Hrun.
  apply (replay_invariant JSON_parse
           (fun c => exists added,
                map fst (pages c) = (map fst (pages (ctx b)) ++ added)%list))
    with (calls := calls) (b := b); [|exact Hrun|].
  - intros fn c c' args Hc [added Hadd].
    destruct (tool_keeps_keys fn c c' args Hc) as [more Hmore].
    exists (added ++ more)%list. now rewrite Hmore, Hadd, app_assoc.
  - exists []. now rewrite app_nil_r.
Qed.

Lemma replay_never_deletes_pages_witness :
  exists added,
    ["/"; "/about"] = (["/"] ++ added)%list.
Proof.
  apply (replay_never_deletes_pages JSON_parse_sample
           [create_page_call "/about" "B"; create_page_call "/" "A2"]
           {| ctx := {| pages := [("/", {| content := "A"; dynamic := [] |})];
                        layout := no_layout |};
              warnings := [] |}
           {| ctx := {| pages := [("/", {| content := "A2"; dynamic := [] |});
                                  ("/about", {| content := "B"; dynamic := [] |})];
                        layout := no_layout |};
              warnings := [] |}).
  reflexivity.
Defined.

(** X13: arguments given as a JSON text are the arguments given as the
    object that the text parses to: a named call does the same in both
    forms. *)
Theorem string_arguments_are_parsed
        (JSON_parse : string -> option JsVal)
        (b : Build) (name text : string) (fields : list (string * JsVal)) :
  JSON_parse text = Some (JObj fields) ->
  name <> "" ->
  parseToolArgs JSON_parse (JStr text) = OK (JObj fields)
  /\ exec_call JSON_parse b (tool_call name (JStr text))
     = exec_call JSON_parse b (tool_call name (JObj fields)).
Proof.
  intros H Hne. apply String.eqb_neq in Hne.
  assert (Hp : parseToolArgs JSON_parse (JStr text) = OK (JObj fields))
    by (unfold parseToolArgs; simpl; now rewrite H).
  split; [exact Hp|].
  unfold exec_call.
  change (call_name (tool_call name (JStr text)))
    with (call_name (tool_call name (JObj fields))).
  change (call_argsRaw (tool_call name (JStr text))) with (JStr text).
  change (call_argsRaw (tool_call name (JObj fields))) with (JObj fields).
  rewrite Hp.
  replace (truthy (call_name (tool_call name (JObj fields)))) with true;
    [reflexivity|].
  unfold call_name, tool_call, or_else. simpl. rewrite Hne. simpl.
  now rewrite Hne.
Qed.

Lemma string_arguments_are_parsed_witness :
  exec_call JSON_parse_sample fresh_build (tool_call "set_layout" (JStr "{}"))
  = OK fresh_build.
Proof.
  refine (eq_trans
            (proj2 (string_arguments_are_parsed JSON_parse_sample fresh_build
                      "set_layout" "{}" [] _ _)) _);
    [reflexivity | discriminate | reflexivity].
Defined.

(** X14: a tool call is read in the shape of the model's response,
    [{ function: { name, arguments } }], and in the flat shape
    [{ name, arguments }] alike: with a name that is not empty, both do
    the same. *)
Theorem flat_call_is_nested_call
        (JSON_parse : string -> option JsVal)
        (b : Build) (name : string) (args : JsVal) :
  name <> "" ->
  exec_call JSON_parse b (flat_call name args)
  = exec_call JSON_parse b (tool_call name args).
Proof.
  intros Hne. apply String.eqb_neq in Hne.
  assert (Hflat : call_name (flat_call name args) = JStr name)
    by reflexivity.
  assert (Hnested : call_name (tool_call name args) = JStr name)
    by (unfold call_name, tool_call, or_else; simpl; now rewrite Hne).
  unfold exec_call. rewrite Hflat, Hnested. simpl. rewrite Hne. simpl.
  destruct (tools_member name); [|reflexivity].
  destruct args; reflexivity.
Qed.

Lemma flat_call_is_nested_call_witness :
  exec_call JSON_parse_sample fresh_build
    (flat_call "create_page" (JObj [("path", JStr "/"); ("content", JStr "A")]))
  = OK {| ctx := {| pages := [("/", {| content := "A"; dynamic := [] |})];
                    layout := no_layout |};
          warnings := [] |}.
Proof.
  refine (eq_trans
            (flat_call_is_nested_call JSON_parse_sample fresh_build
               "create_page" (JObj [("path", JStr "/"); ("content", JStr "A")]) _) _);
    [discriminate | reflexivity].
Defined.

(** X15: the calls that the loop skips do nothing to the store: the
    replay of a list and the replay of the list without them end on the
    same store, or on the same exception; and a replay that ends normally
    has printed one warning for each of them. *)
Theorem skipped_calls_change_nothing
        (JSON_parse : string -> option JsVal) (calls : list JsVal) (b : Build) :
  outcome (replay JSON_parse (filter (fun c => negb (is_skipped c)) calls) b)
  = outcome (replay JSON_parse calls b)
  /\ (forall b',
         replay JSON_parse calls b = OK b' ->
         List.length (warnings b')
         = List.length (warnings b) + List.length (filter is_skipped calls)).
Proof.
  split.
  - now apply replay_outcome_without_skipped.
  - intros b'. apply replay_warnings.
Qed.

Lemma skipped_calls_change_nothing_witness :
  List.length [UnknownToolSkipped "render_page"] = 0 + 1.
Proof.
  apply (proj2 (skipped_calls_change_nothing JSON_parse_sample
                  (calls_around "render_page") fresh_build)
               {| ctx := {| pages := [("/", {| content := "A"; dynamic := [] |});
                                      ("/about", {| content := "B"; dynamic := [] |})];
                            layout := no_layout |};
                  warnings := [UnknownToolSkipped "render_page"] |}).
  reflexivity.
Defined.

(** ** Rendering the pages of a build *)

Section RenderMoreFacts.

Lemma applyDynamicReplacements_reads (now : Clock) (dynamic : list DynamicEntry)
      (t : nat) (html : string) :
  Forall well_formed_rule dynamic ->
  snd (applyDynamicReplacements now t html dynamic) = t + List.length dynamic.
Proof.
  intros H; revert t html; induction H as [|e rest [Hp Ht] _ IH]; intros t html;
    simpl; [lia|].
  apply String.eqb_neq in Hp. rewrite Hp, Ht. simpl.
  rewrite IH. lia.
Qed.

Lemma routes_of_well_formed (b : Build) (path : string) (page : Page) :
  well_formed_pages (pages (ctx b)) ->
  In (path, page) (routes (wire_routes b)) ->
  startsWith path "/" = true /\ Forall well_formed_rule (dynamic page).
Proof.
  intros [_ Hall] Hin. unfold wire_routes, with_fallback in Hin. simpl in Hin.
  destruct (pages (ctx b)) as [|kp ps] eqn:E.
  - destruct Hin as [[= <- <-]|[]]. split; [reflexivity | constructor].
  - rewrite Forall_forall in Hall. apply (Hall (path, page) Hin).
Qed.

End RenderMoreFacts.

(** X17: rules whose placeholders do not occur in the body leave the
    body as it is, whatever the clock says. *)
Theorem absent_placeholders_change_nothing
        (now : Clock) (t : nat) (html : string) (dynamic : list DynamicEntry) :
  (forall e, In e dynamic -> ~ occurs (placeholder e) html) ->
  fst (applyDynamicReplacements now t html dynamic) = html.
Proof.
  revert t; induction dynamic as [|e rest IH]; intros t H; simpl; [reflexivity|].
  assert (Hrest : forall e', In e' rest -> ~ occurs (placeholder e') html)
    by (intros e' He'; apply H; now right).
  destruct (String.eqb_spec (placeholder e) ""); [now apply IH|].
  destruct (String.eqb (type e) "CURRENT_TIME"); [|now apply IH].
  rewrite split_absent; [now apply IH | assumption |].
  apply H. now left.
Qed.

Lemma absent_placeholders_change_nothing_witness :
  fst (applyDynamicReplacements us_clock 0 "<h1>About</h1>" [current_time_rule])
  = "<h1>About</h1>".
Proof.
  apply (absent_placeholders_change_nothing us_clock 0 "<h1>About</h1>"
           [current_time_rule]).
  intros e [<-|[]] Hocc.
  apply (indexOf_None "{{CURRENT_TIME}}" "<h1>About</h1>"); [reflexivity|exact Hocc].
Defined.

(** X18: on every route of a build, path and rules are as the tools make
    them: the path starts with a slash, and a request reads the clock once
    for each rule of the page, each rule getting a reading of its own. *)
Theorem request_reads_clock_once_per_rule
        (JSON_parse : string -> option JsVal) (calls : list JsVal) (b : Build)
        (path : string) (page : Page) (now : Clock) (t : nat) :
  replay JSON_parse calls fresh_build = OK b ->
  In (path, page) (routes (wire_routes b)) ->
  startsWith path "/" = true
  /\ snd (handler (served_layout (wire_routes b)) page now t)
     = t + List.length (dynamic page).
Proof.
  intros Hrun Hin.
  assert (Hwf : well_formed_pages (pages (ctx b))).
  { apply (replay_invariant JSON_parse (fun c => well_formed_pages (pages c))
             tool_keeps_well_formed calls fresh_build b Hrun).
    split; constructor. }
  destruct (routes_of_well_formed b path page Hwf Hin) as [Hs Hrules].
  split; [exact Hs|].
  unfold handler.
  pose proof (applyDynamicReplacements_reads now (dynamic page) t (content page) Hrules)
    as Hreads.
  destruct (applyDynamicReplacements now t (content page) (dynamic page)).
  exact Hreads.
Qed.

Lemma request_reads_clock_once_per_rule_witness :
  snd (handler no_layout colon_page us_clock 5) = 5 + 1.
Proof.
  apply (request_reads_clock_once_per_rule JSON_parse_sample colon_calls
           {| ctx := {| pages := [("/", colon_page)]; layout := no_layout |};
              warnings := [] |}
           "/" colon_page us_clock 5).
  - reflexivity.
  - simpl. left. reflexivity.
Defined.

(** ** The signature of the inventory and the life of a cached plan *)

Section SignatureFacts.

Lemma string_leb_trans (s1 s2 s3 : string) :
  String.leb s1 s2 = true -> String.leb s2 s3 = true -> String.leb s1 s3 = true.
Proof.
  unfold String.leb. revert s2 s3.
  induction s1 as [|c1 s1 IH]; intros [|c2 s2] [|c3 s3]; simpl;
    try reflexivity; try discriminate.
  unfold Ascii.compare.
  destruct (N.compare_spec (N_of_ascii c1) (N_of_ascii c2)) as [E12|L12|G12];
    destruct (N.compare_spec (N_of_ascii c2) (N_of_ascii c3)) as [E23|L23|G23];
    destruct (N.compare_spec (N_of_ascii c1) (N_of_ascii c3)) as [E13|L13|G13];
    try reflexivity; try discriminate; try lia.
  apply IH.
Qed.

Lemma string_leb_false (s1 s2 : string) :
  String.leb s1 s2 = false -> String.leb s2 s1 = true.
Proof.
  intros H. destruct (String.leb_total s1 s2) as [H'|H']; congruence.
Qed.

(** Two insertions give the same list in either order. *)
Lemma insert_sorted_comm (x y : string) (l : list string) :
  insert_sorted x (insert_sorted y l) = insert_sorted y (insert_sorted x l).
Proof.
  induction l as [|z l IH]; simpl.
  - destruct (String.leb x y) eqn:Exy, (String.leb y x) eqn:Eyx; try reflexivity.
    + now rewrite (String.leb_antisym _ _ Exy Eyx).
    + apply string_leb_false in Exy. congruence.
  - destruct (String.leb y z) eqn:Eyz, (String.leb x z) eqn:Exz; simpl.
    + destruct (String.leb x y) eqn:Exy, (String.leb y x) eqn:Eyx;
        rewrite ?Eyz, ?Exz; try reflexivity.
      * now rewrite (String.leb_antisym _ _ Exy Eyx).
      * apply string_leb_false in Exy. congruence.
    + destruct (String.leb x y) eqn:Exy.
      * rewrite (string_leb_trans _ _ _ Exy Eyz) in Exz. discriminate.
      * now rewrite Exz, Eyz.
    + destruct (String.leb y x) eqn:Eyx.
      * rewrite (string_leb_trans _ _ _ Eyx Exz) in Eyz. discriminate.
      * now rewrite Exz, Eyz.
    + now rewrite Eyz, Exz, IH.
Qed.

Lemma sort_permutation (l l' : list string) :
  Permutation l l' -> sort l = sort l'.
Proof.
  unfold sort. induction 1 as [| x l l' _ IH | x y l | l l' l'' _ IH1 _ IH2].
  - reflexivity.
  - simpl. now rewrite IH.
  - simpl. apply insert_sorted_comm.
  - congruence.
Qed.

Lemma cached_tool_calls_reads (env env' : Env) :
  source_mtimeMs env' = source_mtimeMs env ->
  cache_file env' = cache_file env ->
  assets_signature (assetsList env') = assets_signature (assetsList env) ->
  cached_tool_calls env' = cached_tool_calls env.
Proof.
  intros Hs Hc Ha. unfold cached_tool_calls. now rewrite Hs, Hc, Ha.
Qed.

End SignatureFacts.

(** X19: the signature of the asset inventory does not depend on the
    order in which the files are listed. *)
Theorem assets_signature_ignores_order (assets assets' : list string) :
  Permutation assets assets' ->
  assets_signature assets = assets_signature assets'.
Proof.
  intros H. unfold assets_signature. now rewrite (sort_permutation _ _ H).
Qed.

Lemma assets_signature_ignores_order_witness :
  assets_signature ["assets/images/b.png"; "assets/images/a.png"]
  = assets_signature ["assets/images/a.png"; "assets/images/b.png"].
Proof.
  apply (assets_signature_ignores_order
           ["assets/images/b.png"; "assets/images/a.png"]
           ["assets/images/a.png"; "assets/images/b.png"]).
  apply perm_swap.
Defined.

(** X20: the plan that a fresh compilation writes is the plan that the
    next build replays: with the cache file as written, a source not
    modified after the writing and the same asset files, listed in any
    order, the next build takes the tool calls from the cache, without a
    key and without the model, and wires the routes of the first build. *)
Theorem persisted_plan_is_reused
        (JSON_parse : string -> option JsVal) (env env' : Env)
        (calls : list JsVal) (created_at model_name base : string)
        (source_m source_m' written_at : Z) :
  obtain_tool_calls env = OK (FromModel, calls) ->
  cache_file env'
  = Some (written_cache
            (persisted_plan env calls created_at source_m model_name base)
            written_at) ->
  source_mtimeMs env' = Some source_m' ->
  (source_m' <= written_at)%Z ->
  Permutation (assetsList env) (assetsList env') ->
  obtain_tool_calls env' = OK (FromCache, calls)
  /\ built_routes (compileApp JSON_parse env')
     = built_routes (compileApp JSON_parse env).
Proof.
  intros Hfirst Hfile Hsrc Hle Hperm.
  assert (Hobtain : obtain_tool_calls env' = OK (FromCache, calls)).
  { apply obtain_with_cache.
    rewrite (cached_plan_checked env'
               (persisted_plan env calls created_at source_m model_name base)
               source_m' written_at Hsrc Hfile).
    cbn [persisted_plan assetsSignature toolCalls]. unfold assets_signature.
    rewrite (sort_permutation _ _ Hperm), String.eqb_refl.
    apply Z.geb_le in Hle. now rewrite Hle. }
  split; [exact Hobtain|].
  unfold compileApp. rewrite Hobtain, Hfirst. simpl.
  destruct (replay JSON_parse calls fresh_build); reflexivity.
Qed.

Lemma persisted_plan_is_reused_witness :
  obtain_tool_calls second_env = OK (FromCache, [create_page_call "/" "A"])
  /\ built_routes (compileApp JSON_parse_sample second_env)
     = built_routes (compileApp JSON_parse_sample first_env).
Proof.
  apply (persisted_plan_is_reused JSON_parse_sample first_env second_env
           [create_page_call "/" "A"] "2026-11-01T23:25:00.000Z"
           "gemini-2.5-pro"
           "https://generativelanguage.googleapis.com/v1beta/openai"
           100 100 120).
  - reflexivity.
  - reflexivity.
  - reflexivity.
  - intros H. discriminate H.
  - apply perm_swap.
Defined.

(** X21: a build reads its source first: when [app.txt] cannot be read
    the build rejects with the error of the read, before the cache and
    the key are looked at and whatever they are.  When the source is read
    and the cache is accepted, the build depends on neither the key nor
    the model: a build that differs in them only gives the same result,
    from the cache.  When the source is read, the cache is rejected and
    there is no key, the build throws the missing-key error, whatever the
    model would answer. *)
Theorem accepted_cache_needs_no_key
        (JSON_parse : string -> option JsVal) (env env' : Env) :
  source_mtimeMs env' = source_mtimeMs env ->
  cache_file env' = cache_file env ->
  assetsList env' = assetsList env ->
  (forall calls,
      cached_tool_calls env = Some calls ->
      compileApp JSON_parse env' = compileApp JSON_parse env
      /\ obtain_tool_calls env' = OK (FromCache, calls))
  /\ (forall source_m,
         source_mtimeMs env = Some source_m ->
         cached_tool_calls env = None ->
         apiKey env' = None ->
         compileApp JSON_parse env' = Throw missing_key_error)
  /\ (source_mtimeMs env = None ->
      compileApp JSON_parse env' = Throw SystemError).
Proof.
  intros Hs Hc Ha.
  assert (Hsame : cached_tool_calls env' = cached_tool_calls env)
    by (apply cached_tool_calls_reads; congruence).
  split; [|split].
  - intros calls Hcalls. unfold compileApp.
    rewrite (obtain_with_cache env calls Hcalls).
    rewrite (obtain_with_cache env' calls) by congruence. auto.
  - intros source_m Hsrc Hnone Hkey. unfold compileApp.
    rewrite (obtain_without_cache env' source_m) by congruence.
    now rewrite Hkey.
  - intros Hsrc. unfold compileApp.
    rewrite obtain_without_source by congruence. reflexivity.
Qed.

Lemma accepted_cache_needs_no_key_witness :
  compileApp JSON_parse_sample touched_cache_env
  = compileApp JSON_parse_sample
      {| source_mtimeMs := Some 150%Z;
         cache_file := Some {| cache_mtimeMs := 200;
                               cache_parsed := Some (plan_json old_plan) |};
         assetsList := [];
         apiKey := Some "key";
         model_tool_calls := OK [create_page_call "/other" "X"] |}
  /\ compileApp JSON_parse_sample
       {| source_mtimeMs := Some 150%Z;
          cache_file := None;
          assetsList := [];
          apiKey := None;
          model_tool_calls := OK [create_page_call "/" "A"] |}
     = Throw missing_key_error
  /\ compileApp JSON_parse_sample
       {| source_mtimeMs := None;
          cache_file := Some {| cache_mtimeMs := 200;
                                cache_parsed := Some (plan_json old_plan) |};
          assetsList := [];
          apiKey := None;
          model_tool_calls := OK [create_page_call "/" "A"] |}
     = Throw SystemError.
Proof.
  split; [|split].
  - apply (proj1 (accepted_cache_needs_no_key JSON_parse_sample
                    {| source_mtimeMs := Some 150%Z;
                       cache_file := Some {| cache_mtimeMs := 200;
                                             cache_parsed := Some (plan_json old_plan) |};
                       assetsList := [];
                       apiKey := Some "key";
                       model_tool_calls := OK [create_page_call "/other" "X"] |}
                    touched_cache_env
                    eq_refl eq_refl eq_refl) (toolCalls old_plan)).
    reflexivity.
  - apply (proj1 (proj2 (accepted_cache_needs_no_key JSON_parse_sample
                    (fresh_env [create_page_call "/" "A"])
                    {| source_mtimeMs := Some 150%Z;
                       cache_file := None;
                       assetsList := [];
                       apiKey := None;
                       model_tool_calls := OK [create_page_call "/" "A"] |}
                    eq_refl eq_refl eq_refl)) 150%Z); reflexivity.
  - apply (proj2 (proj2 (accepted_cache_needs_no_key JSON_parse_sample
                    {| source_mtimeMs := None;
                       cache_file := Some {| cache_mtimeMs := 200;
                                             cache_parsed := Some (plan_json old_plan) |};
                       assetsList := [];
                       apiKey := Some "key";
                       model_tool_calls := OK [create_page_call "/" "A"] |}
                    {| source_mtimeMs := None;
                       cache_file := Some {| cache_mtimeMs := 200;
                                             cache_parsed := Some (plan_json old_plan) |};
                       assetsList := [];
                       apiKey := None;
                       model_tool_calls := OK [create_page_call "/" "A"] |}
                    eq_refl eq_refl eq_refl))); reflexivity.
Defined.

(** ** The asset inventory *)

Section InventoryFacts.

(** Induction on a directory tree. *)
Lemma DirItem_induction (P : DirItem -> Prop) :
  (forall name, P (FileItem name)) ->
  (forall name, P (SubDir name None)) ->
  (forall name items, Forall P items -> P (SubDir name (Some items))) ->
  forall it, P it.
Proof.
  intros Hfile Hnone Hsome.
  fix self 1. intros [name | name [items|]].
  - apply Hfile.
  - apply Hsome. induction items as [|it items IH]; constructor.
    + apply self.
    + exact IH.
  - apply Hnone.
Qed.

Lemma Forall_flat_map {A B : Type} (Q : B -> Prop) (f : A -> list B) (l : list A) :
  Forall (fun a => Forall Q (f a)) l -> Forall Q (flat_map f l).
Proof.
  induction 1 as [|a l Ha _ IH]; simpl; [constructor|].
  apply Forall_app. now split.
Qed.

Lemma flat_map_ext_Forall {A B : Type} (f g : A -> list B) (l : list A) :
  Forall (fun a => f a = g a) l -> flat_map f l = flat_map g l.
Proof.
  induction 1 as [|a l Ha _ IH]; simpl; [reflexivity|]. now rewrite Ha, IH.
Qed.

Lemma Forall_flat_map_inv {A B : Type} (Q : B -> Prop) (f : A -> list B) (l : list A) :
  Forall Q (flat_map f l) -> Forall (fun a => Forall Q (f a)) l.
Proof.
  induction l as [|a l IH]; simpl; [constructor|].
  intros H. apply Forall_app in H as [Ha Hl]. constructor; auto.
Qed.

(** The separator of the platform leaves no trace in the walk, when no
    name holds it. *)
Lemma walk_item_posix (sep : ascii) (it : DirItem) :
  forall base,
    Forall (fun n => has_char sep n = false) (item_names it) ->
    walk_item sep base it = walk_item slash (subst_char sep slash base) it.
Proof.
  induction it as [name | name | name items IH] using DirItem_induction;
    intros base Hnames; simpl.
  - inversion Hnames as [|? ? Hn _]; subst.
    unfold path_join. rewrite !to_posix_subst, subst_char_same.
    rewrite subst_char_append. simpl. rewrite Ascii.eqb_refl.
    now rewrite (subst_char_absent _ _ _ Hn).
  - reflexivity.
  - inversion Hnames as [|? ? Hn Hrest]; subst.
    apply Forall_flat_map_inv in Hrest.
    assert (Hbase : subst_char sep slash (path_join sep base name)
                    = path_join slash (subst_char sep slash base) name).
    { unfold path_join. rewrite subst_char_append. simpl.
      rewrite Ascii.eqb_refl. now rewrite (subst_char_absent _ _ _ Hn). }
    rewrite <- Hbase. apply flat_map_ext_Forall.
    rewrite Forall_forall in IH, Hrest. apply Forall_forall.
    intros it Hin. apply IH; auto.
Qed.

Lemma startsWith_slash_absent (s : string) :
  has_char slash s = false -> startsWith s "/" = false.
Proof.
  intros H. unfold startsWith. destruct (prefix "/" s) eqn:E; [|reflexivity].
  apply prefix_true in E as [r ->]. discriminate.
Qed.

Lemma startsWith_slash_append (a b : string) :
  a <> "" -> has_char slash a = false -> startsWith (a ++ b) "/" = false.
Proof.
  intros Ha H. unfold startsWith. destruct (prefix "/" (a ++ b)) eqn:E; [|reflexivity].
  apply prefix_true in E as [r E]. destruct a as [|c a]; [congruence|].
  simpl in E. injection E as -> _. discriminate.
Qed.

(** Where a walk under [base] leads: below [base], through names. *)
Lemma walk_item_below (it : DirItem) :
  forall base,
    Forall (fun n => n <> "" /\ has_char slash n = false
                     /\ has_char backslash n = false) (item_names it) ->
    Forall (fun p => exists r, p = base ++ "/" ++ r
                               /\ has_char backslash r = false
                               /\ startsWith r "/" = false)
           (walk_item slash base it).
Proof.
  induction it as [name | name | name items IH] using DirItem_induction;
    intros base Hnames; simpl.
  - inversion Hnames as [|? ? (Hne & Hs & Hb) _]; subst.
    constructor; [|constructor].
    exists name. unfold path_join. rewrite to_posix_subst, subst_char_same.
    repeat split; auto.
    now apply startsWith_slash_absent.
  - constructor.
  - inversion Hnames as [|? ? (Hne & Hs & Hb) Hrest]; subst.
    apply Forall_flat_map_inv in Hrest.
    apply Forall_flat_map.
    rewrite Forall_forall in IH, Hrest. apply Forall_forall.
    intros it Hin.
    eapply Forall_impl; [|apply (IH it Hin (path_join slash base name)); auto].
    intros p (r & -> & Hr & Hstart). cbv beta.
    exists (name ++ "/" ++ r). unfold path_join. repeat split.
    + rewrite !append_assoc. reflexivity.
    + rewrite !has_char_append, Hb, Hr. reflexivity.
    + now apply startsWith_slash_append.
Qed.

Lemma backslashes_to_slashes_absent (s : string) :
  has_char backslash s = false -> backslashes_to_slashes s = s.
Proof.
  induction s as [|x s IH]; simpl; [reflexivity|].
  intros H; apply orb_false_iff in H as [-> H]. now rewrite IH.
Qed.

Lemma strip_leading_separators_none (s : string) :
  startsWith s "/" = false -> has_char backslash s = false ->
  strip_leading_separators s = s.
Proof.
  destruct s as [|c s]; [reflexivity|]. intros Hs Hb.
  unfold strip_leading_separators. simpl in Hb.
  apply orb_false_iff in Hb as [-> _].
  destruct (Ascii.eqb_spec c slash) as [->|]; [|reflexivity].
  assert (H : prefix "/" (String slash s) = true)
    by (apply prefix_true; now exists s).
  unfold startsWith in Hs. congruence.
Qed.

Lemma listAssetFiles_posix (sep : ascii) (tree : option (list DirItem)) :
  sep = slash \/ sep = backslash ->
  Forall (fun n => has_char sep n = false) (tree_names tree) ->
  listAssetFiles sep tree = listAssetFiles slash tree.
Proof.
  intros Hsep Hnames.
  assert (Hbase : subst_char sep slash "assets" = "assets")
    by (destruct Hsep as [-> | ->]; reflexivity).
  unfold listAssetFiles, walk. destruct tree as [items|]; [|reflexivity].
  simpl in Hnames. apply Forall_flat_map_inv in Hnames.
  apply flat_map_ext_Forall. eapply Forall_impl; [|exact Hnames].
  intros it Hit. cbv beta in Hit.
  now rewrite (walk_item_posix sep it "assets" Hit), Hbase.
Qed.

(** What is known of a path of the inventory. *)
Lemma listAssetFiles_entry (sep : ascii) (tree : option (list DirItem)) (p : string) :
  sep = slash \/ sep = backslash ->
  Forall (fun n => n <> "" /\ has_char slash n = false
                   /\ has_char backslash n = false) (tree_names tree) ->
  In p (listAssetFiles sep tree) ->
  exists r, p = "assets/" ++ r
            /\ has_char backslash r = false
            /\ startsWith r "/" = false.
Proof.
  intros Hsep Hnames Hin.
  rewrite listAssetFiles_posix in Hin; [|exact Hsep|].
  - unfold listAssetFiles, walk in Hin. destruct tree as [items|]; [|contradiction].
    apply in_flat_map in Hin as (it & Hit & Hp).
    simpl in Hnames. apply Forall_flat_map_inv in Hnames.
    rewrite Forall_forall in Hnames.
    pose proof (walk_item_below it "assets" (Hnames it Hit)) as H.
    rewrite Forall_forall in H. destruct (H p Hp) as (r & -> & Hr & Hs).
    exists r. auto.
  - eapply Forall_impl; [|exact Hnames].
    intros n (_ & Hs & Hb). cbv beta. destruct Hsep as [-> | ->]; assumption.
Qed.

End InventoryFacts.

(** X22: on a platform whose separator is the slash or the backslash,
    and as long as no file name holds that separator, the inventory is the
    same list of slash-separated paths; a directory that cannot be read
    counts for no file, and every path listed lies under [assets/]. *)
Theorem listAssetFiles_gives_posix_paths
        (sep : ascii) (tree : option (list DirItem)) :
  sep = slash \/ sep = backslash ->
  Forall (fun n => has_char sep n = false) (tree_names tree) ->
  listAssetFiles sep tree = listAssetFiles slash tree
  /\ Forall (fun p => startsWith p "assets/" = true) (listAssetFiles sep tree).
Proof.
  intros Hsep Hnames.
  pose proof (listAssetFiles_posix sep tree Hsep Hnames) as Hposix.
  split; [exact Hposix|]. rewrite Hposix.
  unfold listAssetFiles, walk. destruct tree as [items|]; [|constructor].
  apply Forall_flat_map. apply Forall_forall. intros it _.
  clear. revert it.
  assert (H : forall it base,
             Forall (fun p => startsWith p (base ++ "/") = true)
                    (walk_item slash base it)).
  { induction it as [name | name | name items IH] using DirItem_induction;
      intros base; simpl.
    - constructor; [|constructor]. unfold path_join.
      rewrite to_posix_subst, subst_char_same.
      apply prefix_true. exists name. now rewrite append_assoc.
    - constructor.
    - apply Forall_flat_map. rewrite Forall_forall in IH.
      apply Forall_forall. intros it Hin.
      eapply Forall_impl; [|apply (IH it Hin)].
      intros p Hp. cbv beta in Hp. apply prefix_true in Hp as [r ->].
      apply prefix_true. exists (name ++ "/" ++ r). unfold path_join.
      rewrite !append_assoc. reflexivity. }
  intros it. apply (H it "assets").
Qed.

Lemma listAssetFiles_gives_posix_paths_witness :
  listAssetFiles backslash sample_assets
  = ["assets/logo.svg"; "assets/images/test.png"; "assets/images/hero.jpg"].
Proof.
  refine (eq_trans
            (proj1 (listAssetFiles_gives_posix_paths backslash sample_assets _ _)) _).
  - right. reflexivity.
  - repeat constructor.
  - reflexivity.
Defined.

(** A file name may hold a backslash where the separator is the slash;
    [add_asset] turns it into a slash, so the path of such a file, as
    listed, resolves to the URL of another path. *)
Example backslash_name_resolves_elsewhere :
  listAssetFiles slash (Some [FileItem "back\slash.png"])
  = ["assets/back\slash.png"]
  /\ asset_src "assets/back\slash.png" = "/assets/back/slash.png".
Proof. split; reflexivity. Qed.

(** X23: in an inventory whose file and directory names are not empty
    and hold neither a slash nor a backslash, a path given to [add_asset]
    as it is listed resolves to its own URL under the static mount.
    Given by the name under which the system prompt lists it (the path
    without its leading [assets/]), it resolves to its own URL if and
    only if the file lies in [assets/images/]; a file in [assets/assets/]
    resolves to the slash followed by that name, and a file anywhere else
    to that name in the image folder. *)
Theorem inventory_paths_resolve
        (sep : ascii) (tree : option (list DirItem)) (p : string) :
  sep = slash \/ sep = backslash ->
  Forall (fun n => n <> "" /\ has_char slash n = false
                   /\ has_char backslash n = false) (tree_names tree) ->
  In p (listAssetFiles sep tree) ->
  asset_src p = "/" ++ p
  /\ (asset_src (strip_assets_prefix p) = "/" ++ p
      <-> startsWith p "assets/images/" = true)
  /\ (startsWith p "assets/assets/" = true ->
      asset_src (strip_assets_prefix p) = "/" ++ strip_assets_prefix p)
  /\ (startsWith p "assets/images/" = false ->
      startsWith p "assets/assets/" = false ->
      asset_src (strip_assets_prefix p)
      = "/assets/images/" ++ strip_assets_prefix p).
Proof.
  intros Hsep Hnames Hin.
  destruct (listAssetFiles_entry sep tree p Hsep Hnames Hin) as (r & -> & Hb & Hs).
  assert (Hnorm : normalize_asset r = r).
  { unfold normalize_asset.
    rewrite (strip_leading_separators_none r Hs Hb).
    now apply backslashes_to_slashes_absent. }
  assert (Hstrip : strip_assets_prefix ("assets/" ++ r) = r).
  { unfold strip_assets_prefix.
    replace (startsWith ("assets/" ++ r) "assets/") with true; [reflexivity|].
    symmetry. apply prefix_true. now exists r. }
  split; [|split; [|split]].
  - unfold asset_src, normalize_asset.
    change (strip_leading_separators ("assets/" ++ r)) with ("assets/" ++ r).
    rewrite backslashes_to_slashes_absent
      by (rewrite has_char_append, Hb; reflexivity).
    replace (startsWith ("assets/" ++ r) "assets/") with true; [reflexivity|].
    symmetry. apply prefix_true. now exists r.
  - rewrite Hstrip.
    change (startsWith ("assets/" ++ r) "assets/images/")
      with (startsWith r "images/").
    unfold asset_src. rewrite Hnorm. unfold startsWith.
    destruct (prefix "assets/" r) eqn:E1.
    + apply prefix_true in E1 as [r' ->].
      split; [|discriminate].
      intros H. exfalso. apply (f_equal String.length) in H.
      simpl in H. lia.
    + destruct (prefix "images/" r) eqn:E2.
      * split; reflexivity.
      * split; [|discriminate].
        intros H. exfalso. apply (f_equal String.length) in H.
        simpl in H. lia.
  - rewrite Hstrip.
    change (startsWith ("assets/" ++ r) "assets/assets/")
      with (startsWith r "assets/").
    intros H. unfold asset_src. rewrite Hnorm, H. reflexivity.
  - rewrite Hstrip.
    change (startsWith ("assets/" ++ r) "assets/images/")
      with (startsWith r "images/").
    change (startsWith ("assets/" ++ r) "assets/assets/")
      with (startsWith r "assets/").
    intros H1 H2. unfold asset_src. rewrite Hnorm, H1, H2. reflexivity.
Qed.

Lemma inventory_paths_resolve_witness :
  asset_src "assets/logo.svg" = "/assets/logo.svg"
  /\ asset_src (strip_assets_prefix "assets/logo.svg") <> "/assets/logo.svg"
  /\ asset_src (strip_assets_prefix "assets/logo.svg")
     = "/assets/images/logo.svg".
Proof.
  destruct (inventory_paths_resolve backslash sample_assets "assets/logo.svg")
    as (Hfull & Hname & _ & Hother).
  - right. reflexivity.
  - repeat constructor; discriminate.
  - simpl. left. reflexivity.
  - split; [exact Hfull|]. split.
    + intros H. apply Hname in H. discriminate H.
    + apply Hother; reflexivity.
Defined.

(** ** Error order, plain fragments, unknown tools, the request URL *)

(** X9: [create_page] checks the path first and the content second: a
    path that is no string starting with a slash gives the path error,
    whatever the content; a valid path with a content that is no string
    gives the content error; and it returns normally exactly when both
    are right. *)
Theorem create_page_checks_path_then_content (c : Ctx) (args : JsVal) :
  (valid_path (get_prop (args_or_empty args) "path") = None ->
   create_page c args = Throw create_page_path_error)
  /\ (forall p,
         valid_path (get_prop (args_or_empty args) "path") = Some p ->
         (forall s, get_prop (args_or_empty args) "content" <> JStr s) ->
         create_page c args = Throw create_page_content_error)
  /\ ((exists c', create_page c args = OK c')
      <-> exists p s,
         get_prop (args_or_empty args) "path" = JStr p
         /\ startsWith p "/" = true
         /\ get_prop (args_or_empty args) "content" = JStr s).
Proof.
  split; [|split].
  - intros H. unfold create_page. now rewrite H.
  - intros p Hp Hc. unfold create_page. rewrite Hp.
    destruct (get_prop (args_or_empty args) "content") as [| | | |s| |];
      try reflexivity.
    now destruct (Hc s).
  - split.
    + intros [c' H].
      apply create_page_OK in H as (p & s & Hp & Hs & Hc & _). eauto.
    + intros (p & s & Hp & Hs & Hc). unfold create_page, valid_path.
      rewrite Hp, Hs, Hc. eauto.
Qed.

Lemma create_page_checks_path_then_content_witness :
  create_page (ctx fresh_build) (JObj [("path", JStr "about"); ("content", JNum "1")])
  = Throw create_page_path_error
  /\ create_page (ctx fresh_build) (JObj [("path", JStr "/about")])
     = Throw create_page_content_error.
Proof.
  split.
  - apply (proj1 (create_page_checks_path_then_content (ctx fresh_build)
                    (JObj [("path", JStr "about"); ("content", JNum "1")]))).
    reflexivity.
  - apply (proj1 (proj2 (create_page_checks_path_then_content (ctx fresh_build)
                           (JObj [("path", JStr "/about")]))) "/about").
    + reflexivity.
    + intros s. discriminate.
Defined.

(** X10: with the placement [replace_placeholder] and a fragment that
    holds no dollar, the fragment takes the place of the first occurrence
    of the placeholder, what stands before and after it being kept; when
    the placeholder does not occur, the content is left as it is. *)
Theorem replace_placeholder_with_plain_fragment
        (ph current html : string) :
  ph <> "" ->
  (forall j,
      indexOf ph current = Some j ->
      has_char dollar html = false ->
      place_asset (JStr "replace_placeholder") (JStr ph) current html
      = take j current ++ html ++ drop (j + String.length ph) current
      /\ current = take j current ++ ph ++ drop (j + String.length ph) current
      /\ ~ occurs ph (take j current))
  /\ (~ occurs ph current ->
      place_asset (JStr "replace_placeholder") (JStr ph) current html = current).
Proof.
  intros Hne. split.
  - intros j Hj Hplain.
    rewrite (place_asset_replace_placeholder _ _ _ Hne).
    repeat split.
    + now apply replace_first_plain.
    + now apply indexOf_Some.
    + now apply indexOf_Some_first.
  - intros Habsent. rewrite (place_asset_replace_placeholder _ _ _ Hne).
    now apply replace_absent.
Qed.

Lemma replace_placeholder_with_plain_fragment_witness :
  place_asset (JStr "replace_placeholder") (JStr "{{HERO}}")
    "<h1>Hi</h1>{{HERO}}<p>{{HERO}}</p>" "<img />"
  = "<h1>Hi</h1><img /><p>{{HERO}}</p>"
  /\ place_asset (JStr "replace_placeholder") (JStr "{{HERO}}") "<h1>Hi</h1>" "<img />"
     = "<h1>Hi</h1>".
Proof.
  destruct (replace_placeholder_with_plain_fragment
              "{{HERO}}" "<h1>Hi</h1>{{HERO}}<p>{{HERO}}</p>" "<img />")
    as [Hfound _]; [discriminate|].
  destruct (replace_placeholder_with_plain_fragment
              "{{HERO}}" "<h1>Hi</h1>" "<img />")
    as [_ Habsent]; [discriminate|].
  split.
  - apply (Hfound 11); reflexivity.
  - apply Habsent. apply indexOf_None. reflexivity.
Defined.

Lemma unknown_tool_is_skipped_witness :
  exists b,
    replay JSON_parse_sample
      [create_page_call "/" "A"; tool_call "render_page" JNull;
       create_page_call "/about" "B"] fresh_build = OK b
    /\ lookup "/about" (pages (ctx b)) = Some {| content := "B"; dynamic := [] |}
    /\ lookup "/" (pages (ctx b)) = Some {| content := "A"; dynamic := [] |}
    /\ List.length (warnings b) = 1.
Proof.
  apply (unknown_tool_is_skipped JSON_parse_sample "render_page"
           "/" "A" "/about" "B" JNull); reflexivity.
Defined.

Section UrlFacts.

Lemma strip_trailing_slash_append_slash (s : string) :
  strip_trailing_slash (s ++ "/") = s.
Proof.
  induction s as [|c s IH]; [reflexivity|].
  simpl. rewrite IH. destruct (s ++ "/") eqn:E; [|reflexivity].
  destruct s; discriminate.
Qed.

Lemma strip_trailing_slash_none (s : string) :
  (forall r, s <> r ++ "/") -> strip_trailing_slash s = s.
Proof.
  induction s as [|c s IH]; [reflexivity|]. intros H. simpl.
  destruct s as [|d s].
  - destruct (Ascii.eqb_spec c slash) as [->|]; [|reflexivity].
    now destruct (H "").
  - rewrite IH; [reflexivity|].
    intros r Hr. apply (H (String c r)). simpl. now rewrite Hr.
Qed.

End UrlFacts.

(** X24: the URL of the request is the configured base with one slash
    at its end dropped, if there is one, followed by [/chat/completions]:
    a base followed by a slash gives that base with [/chat/completions],
    whatever the base, and so does the base itself when it does not end
    with a slash.  Only one slash is dropped: of two slashes at the end
    the first is kept. *)
Theorem chat_completions_url_ignores_trailing_slash (base : string) :
  chat_completions_url (base ++ "/") = base ++ "/chat/completions"
  /\ ((forall r, base <> r ++ "/") ->
      chat_completions_url base = base ++ "/chat/completions").
Proof.
  unfold chat_completions_url. split.
  - now rewrite strip_trailing_slash_append_slash.
  - intros H. now rewrite (strip_trailing_slash_none _ H).
Qed.

Lemma chat_completions_url_ignores_trailing_slash_witness :
  chat_completions_url "https://generativelanguage.googleapis.com/v1beta/openai/"
  = "https://generativelanguage.googleapis.com/v1beta/openai/chat/completions"
  /\ chat_completions_url "https://generativelanguage.googleapis.com/v1beta/openai"
     = "https://generativelanguage.googleapis.com/v1beta/openai/chat/completions"
  /\ chat_completions_url "x//" = "x//chat/completions".
Proof.
  split; [|split].
  - exact (proj1 (chat_completions_url_ignores_trailing_slash
                    "https://generativelanguage.googleapis.com/v1beta/openai")).
  - apply (proj2 (chat_completions_url_ignores_trailing_slash
                    "https://generativelanguage.googleapis.com/v1beta/openai")).
    intros r H. pose proof (f_equal strip_trailing_slash H) as Hr.
    rewrite strip_trailing_slash_append_slash in Hr. simpl in Hr. subst r.
    apply (f_equal String.length) in H. simpl in H. lia.
  - exact (proj1 (chat_completions_url_ignores_trailing_slash "x/")).
Defined.
